(** * serverless-esbuild-layers: entry resolution and external-module extraction

    A shallow embedding of [src/utils.ts].  JavaScript strings are modelled
    as [string] (sequences of 8-bit characters), arrays as [list], a [Set]
    as a duplicate-free list in insertion order, [undefined] as [None], and
    an [async] function as a computation that emits a trace of observable
    events and ends in a value or in a thrown error (a rejected promise). *)

From Stdlib Require Import String Ascii List Bool Arith Lia ListSet.
Import ListNotations.
Open Scope string_scope.
Open Scope list_scope.

(** ** JavaScript string primitives used by the source *)

Module JsString.

(** [s.startsWith(p)] *)
Fixpoint startsWith (s p : string) {struct p} : bool :=
  match p, s with
  | EmptyString, _ => true
  | String b p', String a s' => Ascii.eqb a b && startsWith s' p'
  | String _ _, EmptyString => false
  end.

(** [s.includes(c)] for a one-character needle *)
Fixpoint includes_char (c : ascii) (s : string) : bool :=
  match s with
  | EmptyString => false
  | String a s' => Ascii.eqb a c || includes_char c s'
  end.

(** [s.split(sep)] for a one-character separator.  The result always has
    a first segment, so it is returned as a head and the further
    segments. *)
Fixpoint split_ne (sep : ascii) (s : string) : string * list string :=
  match s with
  | EmptyString => (EmptyString, [])
  | String c s' =>
      let '(seg, rest) := split_ne sep s' in
      if Ascii.eqb c sep then (EmptyString, seg :: rest)
      else (String c seg, rest)
  end.

Definition split (sep : ascii) (s : string) : list string :=
  let '(seg, rest) := split_ne sep s in seg :: rest.

(** [segs.join(sep)] *)
Fixpoint join (sep : string) (segs : list string) : string :=
  match segs with
  | [] => EmptyString
  | [x] => x
  | x :: rest => x ++ sep ++ join sep rest
  end.

(** A value interpolated in a template literal: [undefined] prints as the
    nine letters of its name. *)
Definition template (v : option string) : string :=
  match v with
  | Some s => s
  | None => "undefined"
  end.

Fixpoint drop (n : nat) (s : string) : string :=
  match n, s with
  | O, _ => s
  | S n', String _ s' => drop n' s'
  | S _, EmptyString => EmptyString
  end.

(** [s.replace(pat, rep)] with a string pattern: only the first
    occurrence is replaced; the empty pattern occurs at index 0. *)
Fixpoint replace_first (pat rep s : string) : string :=
  if startsWith s pat then rep ++ drop (String.length pat) s
  else match s with
       | EmptyString => EmptyString
       | String c s' => String c (replace_first pat rep s')
       end.

Fixpoint rev_acc (s acc : string) : string :=
  match s with
  | EmptyString => acc
  | String c s' => rev_acc s' (String c acc)
  end.

Definition rev (s : string) : string := rev_acc s EmptyString.

Definition string_in (s : string) (l : list string) : bool :=
  existsb (String.eqb s) l.

End JsString.
Import JsString.

(** ** Module name normalizer *)

(** [fixModuleName]: the destructuring [[group, packageName] = mod.split('/')]
    leaves [packageName] undefined when there is no second segment, and the
    template literal then prints it. *)
Definition fixModuleName (mod_ : string) : string :=
  if startsWith mod_ "@" then
    let '(group, rest) := split_ne "/" mod_ in
    let packageName := nth_error rest 0 in
    group ++ "/" ++ template packageName
  else
    let '(packageName, _) := split_ne "/" mod_ in
    packageName.

(** ** The regular expressions of the source

    Each function below follows the backtracking semantics of the regular
    expression it stands for: leftmost match, greedy quantifiers. *)

Module Regex.

(** The line terminators among 8-bit characters: LF and CR.  The two
    others of JavaScript, U+2028 and U+2029, are no 8-bit characters; a
    statement that depends on them assumes 7-bit text. *)
Definition is_line_terminator (c : ascii) : bool :=
  Ascii.eqb c "010" || Ascii.eqb c "013".

(** [\w] *)
Definition is_word_char (c : ascii) : bool :=
  let n := nat_of_ascii c in
  (((48 <=? n) && (n <=? 57)) || ((65 <=? n) && (n <=? 90))
   || ((97 <=? n) && (n <=? 122)) || (n =? 95))%nat.

Fixpoint all_chars (p : ascii -> bool) (s : string) : bool :=
  match s with
  | EmptyString => true
  | String c s' => p c && all_chars p s'
  end.

Definition nonempty (s : string) : bool :=
  match s with EmptyString => false | String _ _ => true end.

(** [(?:j|t)sx?$] tried at the start of [rest] *)
Definition is_source_extension (rest : string) : bool :=
  string_in rest ["js"; "jsx"; "ts"; "tsx"].

(** [pattern.replace(/\.(?!(?:j|t)sx?$)\w+$/, '.@(ts|js)?(x)')] *)
Fixpoint rewrite_extension (s : string) : string :=
  match s with
  | EmptyString => EmptyString
  | String c s' =>
      if Ascii.eqb c "." && negb (is_source_extension s')
         && nonempty s' && all_chars is_word_char s'
      then ".@(ts|js)?(x)"
      else String c (rewrite_extension s')
  end.

(** The longest [g] with [t = g ++ "/" ++ r] and [r] not empty. *)
Fixpoint last_sep (t : string) : option string :=
  match t with
  | EmptyString => None
  | String c t' =>
      match last_sep t' with
      | Some g => Some (String c g)
      | None => if Ascii.eqb c "/" && nonempty t' then Some EmptyString else None
      end
  end.

(** Group 1 of [/(.+)\/.+$/] when the match starts at the start of [t]:
    the dot matches no line terminator and [$] is the end of input. *)
Definition dir_match (t : string) : option string :=
  match t with
  | EmptyString => None
  | String c t' =>
      if all_chars (fun a => negb (is_line_terminator a)) t then
        match last_sep t' with
        | Some g => Some (String c g)
        | None => None
        end
      else None
  end.

(** [pattern.replace(/(.+)\/.+$/, (_full, match) => match)] *)
Fixpoint replace_with_dir (s : string) : string :=
  match dir_match s with
  | Some g => g
  | None =>
      match s with
      | EmptyString => EmptyString
      | String c s' => String c (replace_with_dir s')
      end
  end.

(** [folderName.replace(/\/$/, '')] *)
Fixpoint strip_trailing_slash (s : string) : string :=
  match s with
  | EmptyString => EmptyString
  | String c s' =>
      if Ascii.eqb c "/" && negb (nonempty s') then EmptyString
      else String c (strip_trailing_slash s')
  end.

Fixpoint take_while (p : ascii -> bool) (s : string) : string :=
  match s with
  | EmptyString => EmptyString
  | String c s' => if p c then String c (take_while p s') else EmptyString
  end.

Fixpoint drop_while (p : ascii -> bool) (s : string) : string :=
  match s with
  | EmptyString => EmptyString
  | String c s' => if p c then drop_while p s' else s
  end.

(** [(.jsx?|.tsx?)?] tried at the start of [r]; the text it matches. *)
Definition match_ext (r : string) : string :=
  match r with
  | String c (String a (String "s" r')) =>
      if negb (is_line_terminator c) && (Ascii.eqb a "j" || Ascii.eqb a "t") then
        String c (String a (String "s"
          (match r' with String "x" _ => "x" | _ => EmptyString end)))
      else EmptyString
  | _ => EmptyString
  end.

(** [[^.]+(.jsx?|.tsx?)?] tried at the start of [s]; the text it matches. *)
Definition match_tail (s : string) : option string :=
  let not_dot := fun c => negb (Ascii.eqb c ".") in
  let run := take_while not_dot s in
  if nonempty run then Some (run ++ match_ext (drop_while not_dot s))%string else None.

(** [((?:[^\/\n]+\/)+)?] followed by the tail, tried at the start of [s]:
    the directory text and the tail text.  [in_seg] says that the current
    directory segment already holds a character.  A directory segment is
    taken whenever the rest can still match; otherwise the matcher backs
    off to no further segment. *)
Fixpoint match_dirs (in_seg : bool) (s : string) : option (string * string) :=
  let extend c r :=
    match r with
    | Some (d, t) => Some (String c d, t)
    | None => None
    end in
  if in_seg then
    match s with
    | EmptyString => None
    | String c s' =>
        if Ascii.eqb c "/" then extend c (match_dirs false s')
        else if Ascii.eqb c "010" then None
        else extend c (match_dirs true s')
    end
  else
    let no_more :=
      match match_tail s with
      | Some t => Some (EmptyString, t)
      | None => None
      end in
    match s with
    | EmptyString => no_more
    | String c s' =>
        if Ascii.eqb c "/" || Ascii.eqb c "010" then no_more
        else match extend c (match_dirs true s') with
             | Some r => Some r
             | None => no_more
             end
    end.

(** [handler.match(/^(((?:[^\/\n]+\/)+)?[^.]+(.jsx?|.tsx?)?)/)] read as
    [[handlerName, , folderName = '']]. *)
Definition handler_match (handler : string) : option (string * string) :=
  match match_dirs false handler with
  | Some (folderName, t) => Some ((folderName ++ t)%string, folderName)
  | None => None
  end.

End Regex.
Import Regex.

(** ** Values, errors and asynchronous computations *)

(** The values a dynamically typed caller can pass where the source
    declares [string | string[]]. *)
#[warning="-register-all"]
Inductive JsValue : Type :=
| JsUndefined
| JsNull
| JsBoolean (b : bool)
| JsNumber (n : nat)
| JsStr (s : string)
| JsArray (items : list JsValue).

Inductive JsError : Type :=
| TypeError (msg : string)
| SystemError (code : string)
| ImportError (msg : string)
| BuildFailure (msg : string).

Record Plugin : Type := mkPlugin { name : string; setup : nat }.

Record BuildOptions : Type := mkBuildOptions {
  loader : option (list (string * string));
  entryPoints : list string;
  plugins : list Plugin;
  metafile : bool;
  bundle : bool;
  platform : string;
  logLevel : string;
  outdir : string
}.

(** What a run does that an observer can see. *)
Inductive Event : Type :=
| EvGlob (pattern : string)
| EvReaddir (dir : string)
| EvConsoleError (msg : string)
| EvConsoleErrorObject (err : JsError)
| EvLoggerError (msg : string)
| EvImport (resolvedPath : string)
| EvBuild (options : BuildOptions).

Inductive Outcome (A : Type) : Type :=
| Resolved (a : A)
| Rejected (e : JsError).
Arguments Resolved {A} a.
Arguments Rejected {A} e.

(** An [async] computation: the events it emits, then how its promise
    settles. *)
Definition Async (A : Type) : Type := (list Event * Outcome A)%type.

Definition ret {A} (a : A) : Async A := ([], Resolved a).

Definition throw {A} (e : JsError) : Async A := ([], Rejected e).

Definition emit (ev : Event) : Async unit := ([ev], Resolved tt).

Definition bind {A B} (m : Async A) (f : A -> Async B) : Async B :=
  match m with
  | (t, Resolved a) => let '(t', o) := f a in (t ++ t', o)
  | (t, Rejected e) => (t, Rejected e)
  end.

Notation "x <- m ;; k" := (bind m (fun x => k))
  (at level 61, m at next level, right associativity).
Notation "m ;;; k" := (bind m (fun _ => k))
  (at level 61, right associativity).

Definition trace {A} (m : Async A) : list Event := fst m.
Definition outcome {A} (m : Async A) : Outcome A := snd m.

(** [Promise.all(ms)]: every computation has been started, in order, when
    the array is built; the promise rejects with the first rejection and
    otherwise resolves to all the values. *)
Fixpoint promise_all {A} (ms : list (Async A)) : Async (list A) :=
  match ms with
  | [] => ret []
  | (t, o) :: rest =>
      let '(t', os) := promise_all rest in
      (t ++ t',
       match o, os with
       | Rejected e, _ => Rejected e
       | Resolved _, Rejected e => Rejected e
       | Resolved a, Resolved l => Resolved (a :: l)
       end)
  end.

(** [for (const x of xs) { acc = body(x, acc) }] *)
Fixpoint for_of {A S} (xs : list A) (body : A -> S -> Async S) (acc : S) : Async S :=
  match xs with
  | [] => ret acc
  | x :: rest => acc' <- body x acc ;; for_of rest body acc'
  end.

(** ** The collaborators: file system, path library, bundler, module loader *)

Record Metaimport : Type := mkImport { path : string; original : option string }.

Record Metafile : Type := mkMetafile {
  outputs : list (string * list Metaimport);
  inputs : list (string * list Metaimport)
}.

Record Env : Type := mkEnv {
  (** names of the entries the [glob] package matches for a pattern *)
  glob : string -> list string;
  (** [fs.promises.readdir] *)
  readdir : string -> JsError + list string;
  (** [path.join], [path.resolve], [process.cwd()] *)
  path_join : list string -> string;
  path_resolve : list string -> string;
  process_cwd : string;
  (** [import(p).then(i => i.default)]: the promise rejects, or gives the
      default export, which is an array of plugins or ([None]) a value that
      is no array, such as [undefined] *)
  import_default : string -> JsError + option (list Plugin);
  (** [esbuild.build] *)
  esbuild_build : BuildOptions -> JsError + Metafile;
  nodeExternalsPlugin : Plugin;
  isBuiltinModule : string -> bool;
  (** [constants.ts] *)
  DEFAULT_AWS_MODULES : list string
}.

(** ** The service model read by the source *)

Record LayerRef : Type := mkLayerRef { Ref : string }.

Record FunctionWithConfig : Type := mkFunction {
  handler : string;
  layers : option (list LayerRef);
  shouldLayer : option bool
}.

Inductive FunctionDefinition : Type :=
| FunctionNullish
| FunctionDefinitionImage (image : string)
| FunctionDefinitionHandler (f : FunctionWithConfig).

Record EsbuildLayersCustom : Type := mkEsbuildLayers { backupFileType : option string }.

Record EsbuildCustom : Type := mkEsbuildCustom {
  custom_plugins : option string;
  custom_loader : option (list (string * string))
}.

Record Custom : Type := mkCustom {
  esbuild_layers : option EsbuildLayersCustom;
  esbuild : option EsbuildCustom
}.

(** [functions] lists the values of [sls.service.functions] in the order
    [Object.values] gives them. *)
Record Service : Type := mkService {
  functions : list (string * FunctionDefinition);
  custom : option Custom
}.

Record Serverless : Type := mkServerless { service : Service }.

Record Config : Type := mkConfig {
  forceInclude : list string;
  forceExclude : list string
}.

(** ** The functions of [utils.ts] *)

Section Utils.

Variable env : Env.

(** [notEmpty] on a value that is either absent or present *)
Definition notEmpty {A} (value : option A) : bool :=
  match value with
  | Some _ => true
  | None => false
  end.

(** [xs.filter(notEmpty)], with the narrowing the type guard gives *)
Fixpoint filter_notEmpty {A} (xs : list (option A)) : list A :=
  match xs with
  | [] => []
  | Some a :: rest => a :: filter_notEmpty rest
  | None :: rest => filter_notEmpty rest
  end.

Definition isFunctionDefinition (value : FunctionDefinition) : bool :=
  match value with
  | FunctionDefinitionHandler _ => true
  | FunctionDefinitionImage _ => false
  | FunctionNullish => false
  end.

(** The directory part [globPromise] joins the matched names onto. *)
Definition basePath (pattern : string) : string :=
  if includes_char "/" pattern then replace_with_dir pattern else EmptyString.

Definition globPromise (pattern : string) : Async (list string) :=
  let rewritten := rewrite_extension pattern in
  emit (EvGlob rewritten) ;;;
  let paths := glob env rewritten in
  ret (map (fun p_name => path_join env [basePath pattern; p_name]) paths).

(** [globPromise] applied to an array element of any type: calling
    [replace] on a value that is not a string throws inside the [async]
    function, before anything is read. *)
Definition globPromise_value (v : JsValue) : Async (list string) :=
  match v with
  | JsStr pattern => globPromise pattern
  | _ => throw (TypeError "pattern.replace is not a function")
  end.

Definition findEntriesSpecified (specifiedEntries : JsValue) : Async (list string) :=
  let entries :=
    match specifiedEntries with
    | JsStr _ => JsArray [specifiedEntries]
    | _ => specifiedEntries
    end in
  match entries with
  | JsArray items =>
      if (List.length items =? 0)%nat then ret []
      else
        allMapped <- promise_all (map globPromise_value items) ;;
        ret (fold_left (fun arr list => arr ++ list) allMapped [])
  | _ => ret []
  end.

(** [newEntries.add(x)] on a [Set] kept in insertion order *)
Definition Set_add (x : string) (s : list string) : list string :=
  set_add string_dec x s.

(** [new Set(xs)] *)
Definition Set_of (xs : list string) : list string :=
  fold_left (fun s x => Set_add x s) xs [].

(** [path.join(folderName, fileName)] where [fileName] may be [undefined]:
    the path library validates that every argument is a string. *)
Definition path_join_checked (folderName : string) (fileName : option string)
  : Async string :=
  match fileName with
  | Some f => ret (path_join env [folderName; f])
  | None =>
      throw (TypeError "The path argument must be of type string. Received undefined")
  end.

Definition readdir_async (dir : string) : Async (list string) :=
  emit (EvReaddir dir) ;;;
  match readdir env dir with
  | inr files => ret files
  | inl e => throw e
  end.

Definition image_diagnostic : string :=
  "This library doesn't currently support functions with an image".

(** The body of the loop of [resolvedEntries]: [continue] returns the set
    as it is. *)
Definition resolve_function (backup : string) (layerRefName : string)
  (func : FunctionDefinition) (newEntries : list string) : Async (list string) :=
  match func with
  | FunctionDefinitionHandler f =>
      let layers_ := match layers f with Some l => l | None => [] end in
      let shouldLayer_ := match shouldLayer f with Some b => b | None => true end in
      if negb shouldLayer_ then ret newEntries
      else if negb (existsb (fun layer => String.eqb (Ref layer) layerRefName) layers_)
      then ret newEntries
      else
        matchedSpecifiedEntries <- findEntriesSpecified (JsArray [JsStr (handler f)]) ;;
        let newEntries :=
          fold_left (fun s entry => Set_add (path_resolve env [entry]) s)
                    matchedSpecifiedEntries newEntries in
        if (List.length matchedSpecifiedEntries =? 0)%nat then
          match handler_match (handler f) with
          | None => ret newEntries
          | Some (handlerName, folderName) =>
              files <- readdir_async (path_resolve env [strip_trailing_slash folderName]) ;;
              let fileName := replace_first folderName EmptyString handlerName in
              let filteredFiles := filter (fun file => startsWith file fileName) files in
              let fileName :=
                if (1 <? List.length filteredFiles)%nat
                then Some (fileName ++ "." ++ backup)%string
                else nth_error filteredFiles 0 in
              joined <- path_join_checked folderName fileName ;;
              ret (Set_add (path_resolve env [joined]) newEntries)
          end
        else ret newEntries
  | _ =>
      emit (EvConsoleError image_diagnostic) ;;;
      ret newEntries
  end.

(** [sls.service.custom?.['esbuild-layers']?.backupFileType ?? 'default'] *)
Definition backupFileType_of (sls : Serverless) : string :=
  match custom (service sls) with
  | Some c =>
      match esbuild_layers c with
      | Some l =>
          match backupFileType l with
          | Some b => b
          | None => "default"
          end
      | None => "default"
      end
  | None => "default"
  end.

Definition resolvedEntries (sls : Serverless) (layerRefName : string)
  : Async (list string) :=
  let backup := backupFileType_of sls in
  for_of (map snd (functions (service sls)))
         (resolve_function backup layerRefName) [].

(** [serverless.service.custom?.esbuild ?? {}] *)
Definition esbuildConfig_of (sls : Serverless) : EsbuildCustom :=
  match custom (service sls) with
  | Some c =>
      match esbuild c with
      | Some e => e
      | None => mkEsbuildCustom None None
      end
  | None => mkEsbuildCustom None None
  end.

Definition import_failed_message (pluginFile : string) : string :=
  "Unable to import your plugin file (" ++ pluginFile ++ ") due to error:".

(** The [try]/[catch] around the plugin import, as the value the variable
    [modules] holds afterwards: [None] stands for a value that is no array. *)
Definition load_plugins (pluginFile : string) : Async (option (list Plugin)) :=
  let resolvedPath := path_resolve env [process_cwd env; pluginFile] in
  let catch (err : JsError) :=
    emit (EvLoggerError (import_failed_message pluginFile)) ;;;
    emit (EvConsoleErrorObject err) in
  emit (EvImport resolvedPath) ;;;
  match import_default env resolvedPath with
  | inl err =>
      (* the import rejects: [modules] keeps its initial value *)
      catch err ;;; ret (Some [])
  | inr None =>
      (* [modules] is assigned the export, then [modules.filter] throws *)
      catch (TypeError "modules.filter is not a function") ;;;
      ret None
  | inr (Some ms) =>
      ret (Some (filter (fun m => negb (String.eqb (name m) "node-externals")) ms))
  end.

Definition importedModules (result : Metafile) : list (list string) :=
  map (fun o => map path (snd o)) (outputs result).

Definition requiredModules (result : Metafile) : list (list string) :=
  map (fun kv =>
         filter_notEmpty
           (map original
                (filter (fun i => startsWith (path i) "node_modules") (snd kv))))
      (filter (fun kv => negb (startsWith (fst kv) "node_modules")) (inputs result)).

(** [[...importedModules, ...requiredModules].reduce((list, mods) =>
    list.concat(...mods), [])] *)
Definition rawSpecifiers (result : Metafile) : list string :=
  fold_left (fun list listsOfMods => list ++ listsOfMods)
            (importedModules result ++ requiredModules result) [].

(** The last two statements of [getExternalModules], on the flattened
    specifiers. *)
Definition filterStage (config : Config) (raw : list string) : list string :=
  let imports :=
    Set_of (map fixModuleName (filter (fun module => negb (isBuiltinModule env module)) raw)) in
  filter (fun dep => negb (string_in dep (DEFAULT_AWS_MODULES env))
                     && negb (string_in dep (forceExclude config)))
         imports
  ++ forceInclude config.

Definition build_options (sls : Serverless) (entries : list string)
  (modules : list Plugin) : BuildOptions :=
  {| loader := custom_loader (esbuildConfig_of sls);
     entryPoints := entries;
     plugins := nodeExternalsPlugin env :: modules;
     metafile := true;
     bundle := true;
     platform := "node";
     logLevel := "silent";
     outdir := ".serverless/tmp_build" |}.

Definition esbuild_build_async (options : BuildOptions) : Async Metafile :=
  emit (EvBuild options) ;;;
  match esbuild_build env options with
  | inr result => ret result
  | inl e => throw e
  end.

(** [if (pluginFile)]: an absent or empty string is falsy. *)
Definition truthy (s : option string) : option string :=
  match s with
  | Some EmptyString => None
  | Some p => Some p
  | None => None
  end.

Definition getExternalModules (sls : Serverless) (config : Config)
  (layerRefName : string) : Async (list string) :=
  entries <- resolvedEntries sls layerRefName ;;
  if (List.length entries =? 0)%nat then ret []
  else
    modules <-
      match truthy (custom_plugins (esbuildConfig_of sls)) with
      | Some pluginFile => load_plugins pluginFile
      | None => ret (Some [])
      end ;;
    match modules with
    | None => throw (TypeError "modules is not iterable")
    | Some modules =>
        result <- esbuild_build_async (build_options sls entries modules) ;;
        ret (filterStage config (rawSpecifiers result))
    end.

End Utils.

(** ** What the claims speak about *)

(** A declared function takes part in the resolution of layer
    [layerRefName]: it has a handler, does not opt out, and names the layer. *)
Definition eligible (layerRefName : string) (func : FunctionDefinition) : bool :=
  match func with
  | FunctionDefinitionHandler f =>
      negb (match shouldLayer f with Some false => true | _ => false end)
      && existsb (fun layer => String.eqb (Ref layer) layerRefName)
                 (match layers f with Some l => l | None => [] end)
  | _ => false
  end.

Definition restrict_functions (keep : FunctionDefinition -> bool) (sls : Serverless)
  : Serverless :=
  {| service :=
       {| functions := filter (fun kv => keep (snd kv)) (functions (service sls));
          custom := custom (service sls) |} |}.

(** The service with no plugin file configured. *)
Definition without_plugin_file (sls : Serverless) : Serverless :=
  {| service :=
       {| functions := functions (service sls);
          custom :=
            match custom (service sls) with
            | Some c =>
                Some {| esbuild_layers := esbuild_layers c;
                        esbuild :=
                          match esbuild c with
                          | Some e => Some {| custom_plugins := None;
                                              custom_loader := custom_loader e |}
                          | None => None
                          end |}
            | None => None
            end |} |}.

(** Events of entry resolution: pattern matching, directory listing, and
    the diagnostic for image functions. *)
Definition is_resolution_event (ev : Event) : bool :=
  match ev with
  | EvGlob _ | EvReaddir _ | EvConsoleError _ => true
  | _ => false
  end.

Definition resolution_event (ev : Event) : Prop := is_resolution_event ev = true.

Definition is_fs_event (ev : Event) : bool :=
  match ev with
  | EvGlob _ | EvReaddir _ => true
  | _ => false
  end.

Definition is_string (v : JsValue) : bool :=
  match v with JsStr _ => true | _ => false end.

Definition is_array (v : JsValue) : bool :=
  match v with JsArray _ => true | _ => false end.

(** An array all of whose elements are strings. *)
Definition is_string_sequence (v : JsValue) : bool :=
  match v with
  | JsArray items => forallb is_string items
  | _ => false
  end.

(** The first [n] segments of a specifier, joined again. *)
Definition leading_segments (n : nat) (specifier : string) : string :=
  join "/" (firstn n (split "/" specifier)).

(** The names that survive the removals, before the forced inclusions. *)
Definition kept (env : Env) (config : Config) (raw : list string) : list string :=
  filter (fun dep => negb (string_in dep (DEFAULT_AWS_MODULES env))
                     && negb (string_in dep (forceExclude config)))
         (Set_of (map fixModuleName
                      (filter (fun module => negb (isBuiltinModule env module)) raw))).




(** What the extraction does once entries are resolved and the override
    set is empty. *)
Definition extraction_outcome (env : Env) (sls : Serverless) (config : Config)
  (entries : list string) : Outcome (list string) :=
  match esbuild_build env (build_options env sls entries []) with
  | inr result => Resolved (filterStage env config (rawSpecifiers result))
  | inl e => Rejected e
  end.

(** ** A concrete environment: files on a POSIX disk

    Paths here hold no [.] or [..] segment, so joining and resolving only
    have to place separators. *)

Module Posix.

Fixpoint collapse_slashes (s : string) : string :=
  match s with
  | EmptyString => EmptyString
  | String c s' =>
      match s' with
      | String c' _ =>
          if Ascii.eqb c "/" && Ascii.eqb c' "/" then collapse_slashes s'
          else String c (collapse_slashes s')
      | EmptyString => String c EmptyString
      end
  end.

Definition join (parts : list string) : string :=
  let joined := collapse_slashes (JsString.join "/" (filter nonempty parts)) in
  if nonempty joined then joined else ".".

Definition strip_trailing_slashes (s : string) : string :=
  match s with
  | String c EmptyString => s
  | _ => JsString.rev (drop_while (fun c => Ascii.eqb c "/") (JsString.rev s))
  end.

(** The last absolute part starts the result afresh; [cwd] is absolute. *)
Definition resolve (cwd : string) (parts : list string) : string :=
  let step (acc part : string) : string :=
    if startsWith part "/" then part
    else if nonempty part then (acc ++ "/" ++ part)%string
    else acc in
  strip_trailing_slashes (collapse_slashes (fold_left step parts cwd)).

Definition basename (p : string) : string :=
  let '(seg, rest) := split_ne "/" p in last rest seg.

Definition ends_with (s suffix : string) : bool :=
  startsWith (JsString.rev s) (JsString.rev suffix).

Definition glob_magic : string := ".@(ts|js)?(x)".

(** Pattern matching for the shapes the resolver builds: a literal path,
    or a literal stem followed by the extension alternative. *)
Definition glob (cwd : string) (files : list string) (pattern : string) : list string :=
  let present p := if string_in (resolve cwd [p]) files then [basename p] else [] in
  if ends_with pattern glob_magic then
    let stem := substring 0 (String.length pattern - String.length glob_magic) pattern in
    flat_map (fun ext => present (stem ++ ext)%string) [".ts"; ".js"; ".tsx"; ".jsx"]
  else present pattern.

(** The names of the files right under [dir]; a directory without files
    does not exist. *)
Definition readdir (files : list string) (dir : string) : JsError + list string :=
  let under f :=
    let prefix_ := (dir ++ "/")%string in
    if startsWith f prefix_ then
      let r := drop (String.length prefix_) f in
      if includes_char "/" r then [] else [r]
    else [] in
  match flat_map under files with
  | [] => inl (SystemError "ENOENT")
  | names => inr names
  end.

End Posix.

Module Sample.

Definition externals : Plugin := {| name := "node-externals"; setup := 0 |}.

Definition builtin_modules : list string := ["fs"; "path"; "node:fs"; "node:path"; "crypto"].

Definition graph : Metafile :=
  {| outputs := [("hello.js", [mkImport "uuid/v4" None; mkImport "fs" None])];
     inputs :=
       [("src/hello.ts",
         [mkImport "node_modules/uuid/v5.js" (Some "uuid/v5");
          mkImport "src/util.ts" (Some "./util")]);
        ("node_modules/uuid/v5.js",
         [mkImport "node_modules/uuid/lib/sha1.js" (Some "./lib/sha1")])] |}.

(** A project rooted at [/app] with the given files; no plugin module can
    be loaded, and the bundler answers with [graph]. *)
Definition disk_env (files : list string) : Env :=
  {| glob := Posix.glob "/app" files;
     readdir := Posix.readdir files;
     path_join := Posix.join;
     path_resolve := Posix.resolve "/app";
     process_cwd := "/app";
     import_default := fun _ => inl (ImportError "Cannot find module");
     esbuild_build := fun _ => inr graph;
     nodeExternalsPlugin := externals;
     isBuiltinModule := fun m => string_in m builtin_modules;
     DEFAULT_AWS_MODULES := ["aws-sdk"] |}.

Definition on_disk (files : list string) (p : string) : bool := string_in p files.

Definition layered (h : string) (layer : string) : FunctionDefinition :=
  FunctionDefinitionHandler
    {| handler := h; layers := Some [mkLayerRef layer]; shouldLayer := None |}.

Definition sls_of (fs : list (string * FunctionDefinition)) (plugin : option string)
  : Serverless :=
  {| service :=
       {| functions := fs;
          custom := Some {| esbuild_layers := None;
                            esbuild := Some {| custom_plugins := plugin;
                                               custom_loader := None |} |} |} |}.

(** The example service of the repository's tests. *)
Definition hello_files : list string := ["/app/examples/example-layer-service/hello.js"].

Definition hello_sls : Serverless :=
  sls_of [("f1", layered "examples/example-layer-service/hello.default" "LayerA")]
         (Some "plugins.js").


Definition ambiguous_sls : Serverless :=
  sls_of [("f1", layered "src/hello.handler" "LayerA")] None.

(** The handler's directory exists and holds no file with its prefix. *)
Definition missing_files : list string := ["/app/src/other.js"].

Definition missing_sls : Serverless :=
  sls_of [("f1", layered "src/missing.handler" "LayerA");
          ("f2", layered "src/other.handler" "LayerA")] None.

Definition config0 : Config := {| forceInclude := []; forceExclude := [] |}.

Definition config_both : Config :=
  {| forceInclude := ["aws-sdk"; "uuid"]; forceExclude := ["uuid"; "lodash"] |}.

End Sample.

(** ** Shapes of handlers and patterns *)

(** A character a directory segment of a handler may hold: [[^\/\n]]. *)
Definition is_segment_char (c : ascii) : bool :=
  negb (Ascii.eqb c "/" || Ascii.eqb c "010").

Definition is_dir_segment (seg : string) : bool :=
  nonempty seg && all_chars is_segment_char seg.

(** The folder text of a handler whose directories are [segs]: every
    segment followed by a separator. *)
Fixpoint folder_of (segs : list string) : string :=
  match segs with
  | [] => EmptyString
  | seg :: rest => seg ++ String "/" (folder_of rest)
  end.

(** A character the file-name part of a handler may hold. *)
Definition is_name_char (c : ascii) : bool :=
  negb (Ascii.eqb c "." || Ascii.eqb c "/").

Definition no_line_terminator (s : string) : bool :=
  all_chars (fun c => negb (is_line_terminator c)) s.

(** The paths [globPromise] gives for one pattern. *)
Definition matches_of (env : Env) (pattern : string) : list string :=
  map (fun p_name => path_join env [basePath pattern; p_name])
      (glob env (rewrite_extension pattern)).

(** The pattern matches an array of values starts: one for each string. *)
Definition globs_of (items : list JsValue) : list Event :=
  flat_map (fun v => match v with
                     | JsStr pattern => [EvGlob (rewrite_extension pattern)]
                     | _ => []
                     end) items.

(** The service with its declared functions replaced. *)
Definition with_functions (sls : Serverless) (fs : list (string * FunctionDefinition))
  : Serverless :=
  {| service := {| functions := fs; custom := custom (service sls) |} |}.

(** The directory the fallback lists for a folder name. *)
Definition fallback_dir (env : Env) (folderName : string) : string :=
  path_resolve env [strip_trailing_slash folderName].

(** The directory entries that start with the file name of the handler. *)
Definition prefix_matches (handlerName folderName : string) (files : list string)
  : list string :=
  filter (fun file => startsWith file (replace_first folderName EmptyString handlerName))
         files.

(** [p] is the absolute form of a pattern match of an eligible function
    among [funcs]. *)
Definition contributes (env : Env) (layerRefName : string)
  (funcs : list FunctionDefinition) (p : string) : Prop :=
  exists f, In (FunctionDefinitionHandler f) funcs
            /\ eligible layerRefName (FunctionDefinitionHandler f) = true
            /\ In p (map (fun entry => path_resolve env [entry])
                         (matches_of env (handler f))).

(** ** Configuration objects *)

(** A JavaScript object as its own enumerable properties, in the order of
    their creation (the keys are names, not array indices). *)
Module Obj.

Definition t (V : Type) : Type := list (string * V).

Definition keys {V} (o : t V) : list string := map fst o.

(** [o[k]] *)
Fixpoint get {V} (k : string) (o : t V) : option V :=
  match o with
  | [] => None
  | (k', v) :: rest => if String.eqb k' k then Some v else get k rest
  end.

(** [o[k] = v]: an existing property keeps its place, a new one comes last. *)
Fixpoint set {V} (k : string) (v : V) (o : t V) : t V :=
  match o with
  | [] => [(k, v)]
  | (k', v') :: rest =>
      if String.eqb k' k then (k', v) :: rest else (k', v') :: set k v rest
  end.

(** [{ ...target, ...source }], on a [target] already copied. *)
Definition spread {V} (target source : t V) : t V :=
  fold_left (fun o kv => set (fst kv) (snd kv) o) source target.

(** An object literal has each key once. *)
Definition well_formed {V} (o : t V) : Prop := NoDup (keys o).

End Obj.

(** [compileConfig]: [{ ...DEFAULT_CONFIG, ...userConfig }].  The defaults
    of [constants.ts] are a parameter. *)
Definition compileConfig {V} (DEFAULT_CONFIG userConfig : Obj.t V) : Obj.t V :=
  Obj.spread (Obj.spread [] DEFAULT_CONFIG) userConfig.

(** The environment [env] with another module loader and bundler. *)
Definition with_collaborators (env : Env)
  (import_ : string -> JsError + option (list Plugin))
  (build : BuildOptions -> JsError + Metafile) : Env :=
  {| glob := glob env;
     readdir := readdir env;
     path_join := path_join env;
     path_resolve := path_resolve env;
     process_cwd := process_cwd env;
     import_default := import_;
     esbuild_build := build;
     nodeExternalsPlugin := nodeExternalsPlugin env;
     isBuiltinModule := isBuiltinModule env;
     DEFAULT_AWS_MODULES := DEFAULT_AWS_MODULES env |}.

(** ** What the disk holds *)

(** A character the pattern matcher gives a meaning to. *)
Definition is_glob_magic (c : ascii) : bool :=
  existsb (Ascii.eqb c)
          ["*"; "?"; "["; "]"; "{"; "}"; "("; ")"; "!"; "+"; "@"; "092"]%char.

Definition has_glob_magic (s : string) : bool :=
  negb (all_chars (fun c => negb (is_glob_magic c)) s).

(** What the pattern matcher answers for handler [h]: every name it gives
    is the name of an entry, on disk, of some directory; and when the
    directory part of the handler is literal, that directory is the one the
    pattern names.  [entry dir name] is the path of entry [name] of
    directory [dir]. *)
Definition glob_contract (env : Env) (on_disk : string -> bool)
  (entry : string -> string -> string) (h : string) : Prop :=
  forall p_name, In p_name (glob env (rewrite_extension h)) ->
    exists dir,
      on_disk (entry dir p_name) = true
      /\ (has_glob_magic (basePath h) = false -> dir = path_resolve env [basePath h]).




(** The path of an entry of a directory given by its absolute path. *)
Definition posix_entry (dir name : string) : string := (dir ++ "/" ++ name)%string.

(** A project where the handler names its directory by a wildcard. *)
Definition wildcard_files : list string := ["/app/src/a/hello.ts"].

Definition wildcard_env : Env :=
  {| glob := fun pattern =>
               if String.eqb pattern "src/*/hello.@(ts|js)?(x)" then ["hello.ts"] else [];
     readdir := Posix.readdir wildcard_files;
     path_join := Posix.join;
     path_resolve := Posix.resolve "/app";
     process_cwd := "/app";
     import_default := fun _ => inl (ImportError "Cannot find module");
     esbuild_build := fun _ => inr Sample.graph;
     nodeExternalsPlugin := Sample.externals;
     isBuiltinModule := fun m => string_in m Sample.builtin_modules;
     DEFAULT_AWS_MODULES := ["aws-sdk"] |}.

Definition wildcard_sls : Serverless :=
  Sample.sls_of [("f1", Sample.layered "src/*/hello.handler" "LayerA")] None.

(** Text of 7-bit characters: there a character of the model is a
    character of the JavaScript string. *)
Definition ascii_only (s : string) : bool :=
  all_chars (fun c => (nat_of_ascii c <? 128)%nat) s.

Definition is_digit (c : ascii) : bool :=
  ((48 <=? nat_of_ascii c) && (nat_of_ascii c <=? 57))%nat.

(** A key that is a name: not a run of digits, which JavaScript would
    enumerate before the other keys. *)
Definition is_name_key (k : string) : bool :=
  negb (nonempty k && all_chars is_digit k).


(** * Properties *)

(** ** Strings and the module name normalizer *)

Lemma split_ne_includes (sep : ascii) (s : string) :
  includes_char sep s = true -> snd (split_ne sep s) <> [].
Proof.
  induction s as [|c s IH]; simpl; [discriminate|].
  destruct (split_ne sep s) as [seg rest] eqn:E.
  destruct (Ascii.eqb c sep); simpl; [discriminate|].
  exact IH.
Qed.

Lemma split_ne_no_sep (sep : ascii) (s : string) :
  includes_char sep s = false -> split_ne sep s = (s, []).
Proof.
  induction s as [|c s IH]; simpl; [reflexivity|].
  destruct (Ascii.eqb c sep); simpl; [discriminate|].
  intros H. rewrite (IH H). reflexivity.
Qed.

Lemma split_ne_app (sep : ascii) (a b : string) :
  includes_char sep a = false ->
  split_ne sep (a ++ String sep b) =
    (a, fst (split_ne sep b) :: snd (split_ne sep b)).
Proof.
  induction a as [|c a IH]; simpl.
  - intros _. destruct (split_ne sep b). rewrite Ascii.eqb_refl. reflexivity.
  - destruct (Ascii.eqb c sep); simpl; [discriminate|].
    intros H. rewrite (IH H). reflexivity.
Qed.

(** The unscoped branch: exactly the first segment. *)
Lemma fixModuleName_unscoped (specifier : string) :
  startsWith specifier "@" = false ->
  fixModuleName specifier = leading_segments 1 specifier.
Proof.
  intros H. unfold fixModuleName, leading_segments, split. rewrite H.
  destruct (split_ne "/" specifier) as [seg rest]. reflexivity.
Qed.

(** The scoped branch, when the specifier has a second segment: exactly
    the first two segments joined. *)
Lemma fixModuleName_scoped (specifier : string) :
  startsWith specifier "@" = true ->
  includes_char "/" specifier = true ->
  fixModuleName specifier = leading_segments 2 specifier.
Proof.
  intros H Hs. unfold fixModuleName, leading_segments, split. rewrite H.
  pose proof (split_ne_includes "/" specifier Hs) as Hne.
  destruct (split_ne "/" specifier) as [seg rest]. simpl in Hne.
  destruct rest as [|r rest]; [congruence|]. reflexivity.
Qed.

(** ["@scope/pkg/...rest"] maps to ["@scope/pkg"]. *)
Lemma fixModuleName_scoped_subpath (scope pkg rest : string) :
  includes_char "/" scope = false ->
  includes_char "/" pkg = false ->
  fixModuleName (String "@" scope ++ String "/" (pkg ++ String "/" rest))
  = (String "@" scope ++ String "/" pkg)%string.
Proof.
  intros Hs Hp. unfold fixModuleName.
  replace (startsWith (String "@" scope ++ String "/" (pkg ++ String "/" rest)) "@")
    with true by reflexivity.
  rewrite split_ne_app by (simpl; exact Hs).
  rewrite split_ne_app by exact Hp. reflexivity.
Qed.

(** ["pkg/...rest"] maps to ["pkg"]. *)
Lemma fixModuleName_unscoped_subpath (pkg rest : string) :
  startsWith pkg "@" = false ->
  pkg <> EmptyString ->
  includes_char "/" pkg = false ->
  fixModuleName (pkg ++ String "/" rest) = pkg.
Proof.
  intros Hs Hne Hp. unfold fixModuleName.
  destruct pkg as [|c pkg]; [congruence|].
  change (startsWith (String c pkg ++ String "/" rest) "@")
    with (startsWith (String c pkg) "@").
  rewrite Hs, split_ne_app by exact Hp. reflexivity.
Qed.

Example fixModuleName_ui_lib :
  fixModuleName "@beforeyoubid/ui-lib" = "@beforeyoubid/ui-lib".
Proof. reflexivity. Qed.

Example fixModuleName_ui_lib_something :
  fixModuleName "@beforeyoubid/ui-lib/something" = "@beforeyoubid/ui-lib".
Proof. reflexivity. Qed.

Example fixModuleName_uuid_v4 : fixModuleName "uuid/v4" = "uuid".
Proof. reflexivity. Qed.

(** C8.  A specifier that starts with [@] and has no second segment is not
    mapped to its leading segments: the missing package name is printed as
    the word undefined after a separator. *)
Theorem fixModuleName_scope_without_package :
  startsWith "@scope" "@" = true /\
  fixModuleName "@scope" = "@scope/undefined" /\
  leading_segments 2 "@scope" = "@scope" /\
  fixModuleName "@scope" <> leading_segments 2 "@scope".
Proof.
  repeat split; try reflexivity. vm_compute. discriminate.
Qed.

(** ** The dependency filter *)

Lemma string_in_In (s : string) (l : list string) :
  string_in s l = true <-> In s l.
Proof.
  unfold string_in. rewrite existsb_exists. split.
  - intros [x [Hx He]]. apply String.eqb_eq in He. now subst.
  - intros H. exists s. split; [exact H | apply String.eqb_refl].
Qed.

Lemma string_in_not_In (s : string) (l : list string) :
  string_in s l = false <-> ~ In s l.
Proof.
  rewrite <- string_in_In. destruct (string_in s l); split; congruence.
Qed.

Lemma Set_add_NoDup (x : string) (s : list string) : NoDup s -> NoDup (Set_add x s).
Proof. apply set_add_nodup. Qed.

Lemma Set_add_In (x y : string) (s : list string) :
  In y (Set_add x s) <-> y = x \/ In y s.
Proof. apply set_add_iff. Qed.

Lemma Set_fold_NoDup (xs acc : list string) :
  NoDup acc -> NoDup (fold_left (fun s x => Set_add x s) xs acc).
Proof.
  revert acc. induction xs as [|x xs IH]; intros acc H; simpl; [exact H|].
  apply IH, Set_add_NoDup, H.
Qed.

Lemma Set_fold_In (y : string) (xs acc : list string) :
  In y (fold_left (fun s x => Set_add x s) xs acc) <-> In y xs \/ In y acc.
Proof.
  revert acc. induction xs as [|x xs IH]; intros acc; simpl.
  - tauto.
  - rewrite IH, Set_add_In. intuition congruence.
Qed.

Lemma Set_of_NoDup (xs : list string) : NoDup (Set_of xs).
Proof. apply Set_fold_NoDup. constructor. Qed.

Lemma Set_of_In (y : string) (xs : list string) : In y (Set_of xs) <-> In y xs.
Proof. unfold Set_of. rewrite Set_fold_In. simpl. tauto. Qed.

Lemma filterStage_split (env : Env) (config : Config) (raw : list string) :
  filterStage env config raw = kept env config raw ++ forceInclude config.
Proof. reflexivity. Qed.

Lemma kept_NoDup (env : Env) (config : Config) (raw : list string) :
  NoDup (kept env config raw).
Proof. apply NoDup_filter, Set_of_NoDup. Qed.

(** A kept name is the normal form of a raw specifier that is not built
    in, and is neither always available nor excluded. *)
Lemma kept_In (env : Env) (config : Config) (raw : list string) (dep : string) :
  In dep (kept env config raw) <->
  (exists module, In module raw /\ isBuiltinModule env module = false
                  /\ fixModuleName module = dep)
  /\ ~ In dep (DEFAULT_AWS_MODULES env) /\ ~ In dep (forceExclude config).
Proof.
  unfold kept. rewrite filter_In, Set_of_In, in_map_iff, andb_true_iff.
  rewrite !negb_true_iff, !string_in_not_In.
  split.
  - intros [[m [Hm Hin]] [H1 H2]]. apply filter_In in Hin as [Hin Hb].
    apply negb_true_iff in Hb. split; [exists m|]; auto.
  - intros [[m [Hin [Hb Hm]]] [H1 H2]]. split; [exists m; split; [exact Hm|]|auto].
    apply filter_In. split; [exact Hin|]. now rewrite Hb.
Qed.

(** The filter stage ends with the entries of [forceInclude], in their
    declared order, after all removals; so a name listed in both
    [forceInclude] and [forceExclude] is in the output of the stage. *)
Theorem filterStage_inclusion_wins
  (env : Env) (config : Config) (raw : list string) (dep : string) :
  In dep (forceInclude config) ->
  In dep (forceExclude config) ->
  In dep (filterStage env config raw)
  /\ ~ In dep (kept env config raw)
  /\ filterStage env config raw = kept env config raw ++ forceInclude config
  /\ skipn (List.length (kept env config raw)) (filterStage env config raw)
     = forceInclude config.
Proof.
  intros Hi He. rewrite filterStage_split. repeat split.
  - apply in_or_app. now right.
  - rewrite kept_In. tauto.
  - rewrite skipn_app, skipn_all, Nat.sub_diag. reflexivity.
Qed.

Lemma filterStage_inclusion_wins_witness :
  In "uuid" (forceInclude Sample.config_both) /\
  In "uuid" (forceExclude Sample.config_both) /\
  In "uuid" (filterStage (Sample.disk_env []) Sample.config_both ["uuid/v4"; "lodash"; "got"]) /\
  filterStage (Sample.disk_env []) Sample.config_both ["uuid/v4"; "lodash"; "got"]
  = ["got"; "aws-sdk"; "uuid"].
Proof.
  assert (Hi : In "uuid" (forceInclude Sample.config_both)) by (simpl; tauto).
  assert (He : In "uuid" (forceExclude Sample.config_both)) by (simpl; tauto).
  split; [exact Hi|]. split; [exact He|].
  split.
  - exact (proj1 (filterStage_inclusion_wins (Sample.disk_env [])
                    Sample.config_both ["uuid/v4"; "lodash"; "got"] "uuid" Hi He)).
  - reflexivity.
Defined.

(** C2.  The specifiers ["uuid/v4"], ["@scope/pkg/deep"], ["uuid/v4"], none
    of them built in, with nothing forced in or out, are filtered to
    ["uuid"], ["@scope/pkg"]; the stage is a function of its input, so a
    repeated run gives the same sequence.  The list of modules that are
    always available is not part of the sources: it is assumed to hold
    neither name. *)
Theorem filterStage_scenario (env : Env) (config : Config) :
  forceInclude config = [] ->
  forceExclude config = [] ->
  isBuiltinModule env "uuid/v4" = false ->
  isBuiltinModule env "@scope/pkg/deep" = false ->
  ~ In "uuid" (DEFAULT_AWS_MODULES env) ->
  ~ In "@scope/pkg" (DEFAULT_AWS_MODULES env) ->
  filterStage env config ["uuid/v4"; "@scope/pkg/deep"; "uuid/v4"]
  = ["uuid"; "@scope/pkg"].
Proof.
  intros Hi He Hb1 Hb2 Ha1 Ha2.
  apply string_in_not_In in Ha1, Ha2.
  unfold filterStage. rewrite Hi, He. cbn [filter].
  rewrite Hb1, Hb2. cbn [negb map].
  change (Set_of [fixModuleName "uuid/v4"; fixModuleName "@scope/pkg/deep";
                  fixModuleName "uuid/v4"])
    with ["uuid"; "@scope/pkg"].
  cbn [filter]. rewrite Ha1, Ha2. reflexivity.
Qed.

Lemma filterStage_scenario_witness :
  filterStage (Sample.disk_env []) Sample.config0
              ["uuid/v4"; "@scope/pkg/deep"; "uuid/v4"]
  = ["uuid"; "@scope/pkg"].
Proof.
  apply filterStage_scenario; try reflexivity;
    simpl; intros H; repeat (destruct H as [H|H]; [discriminate|]); exact H.
Defined.

(** A name that [forceInclude] does not contribute occurs at most once
    in the output of the filter stage: the names are collected in a set
    after the built-in modules are removed and the specifiers normalized. *)
Theorem filterStage_at_most_once
  (env : Env) (config : Config) (raw : list string) (dep : string) :
  ~ In dep (forceInclude config) ->
  (count_occ string_dec (filterStage env config raw) dep <= 1)%nat
  /\ NoDup (kept env config raw)
  /\ filterStage env config raw = kept env config raw ++ forceInclude config.
Proof.
  intros Hn. pose proof (kept_NoDup env config raw) as Hnd.
  assert (Hc : (count_occ string_dec (kept env config raw) dep <= 1)%nat)
    by (apply (proj1 (NoDup_count_occ string_dec _) Hnd)).
  repeat split; auto.
  rewrite filterStage_split, count_occ_app.
  rewrite (proj1 (count_occ_not_In string_dec (forceInclude config) dep) Hn).
  lia.
Qed.

Lemma filterStage_at_most_once_witness :
  ~ In "uuid" (forceInclude Sample.config0) /\
  (count_occ string_dec
     (filterStage (Sample.disk_env []) Sample.config0 ["uuid/v4"; "uuid/v5"]) "uuid" <= 1)%nat /\
  filterStage (Sample.disk_env []) Sample.config0 ["uuid/v4"; "uuid/v5"] = ["uuid"].
Proof.
  assert (Hn : ~ In "uuid" (forceInclude Sample.config0)) by (simpl; tauto).
  split; [exact Hn|]. split.
  - exact (proj1 (filterStage_at_most_once (Sample.disk_env []) Sample.config0
                    ["uuid/v4"; "uuid/v5"] "uuid" Hn)).
  - reflexivity.
Defined.

(** ** Asynchronous computations *)

Lemma bind_resolved {A B} (t : list Event) (a : A) (f : A -> Async B) :
  bind (t, Resolved a) f = (t ++ trace (f a), outcome (f a)).
Proof. unfold bind, trace, outcome. destruct (f a). reflexivity. Qed.

Lemma bind_rejected {A B} (t : list Event) (e : JsError) (f : A -> Async B) :
  bind (t, Rejected e) f = (t, Rejected e).
Proof. reflexivity. Qed.

Lemma bind_ret_l {A B} (a : A) (f : A -> Async B) : bind (ret a) f = f a.
Proof. unfold ret. rewrite bind_resolved. destruct (f a). reflexivity. Qed.

Lemma bind_trace_Forall {A B} (P : Event -> Prop) (m : Async A) (f : A -> Async B) :
  Forall P (trace m) ->
  (forall a, Forall P (trace (f a))) ->
  Forall P (trace (bind m f)).
Proof.
  intros Hm Hf. destruct m as [t [a|e]].
  - rewrite bind_resolved. apply Forall_app. split; [exact Hm | apply Hf].
  - exact Hm.
Qed.

Lemma promise_all_trace_Forall {A} (P : Event -> Prop) (ms : list (Async A)) :
  Forall (fun m => Forall P (trace m)) ms ->
  Forall P (trace (promise_all ms)).
Proof.
  induction 1 as [|[t o] ms Hm _ IH]; simpl; [constructor|].
  destruct (promise_all ms) as [t' os]. apply Forall_app. split; assumption.
Qed.

Lemma for_of_cons {A S} (x : A) (xs : list A) (body : A -> S -> Async S) (acc : S) :
  for_of (x :: xs) body acc = bind (body x acc) (for_of xs body).
Proof. reflexivity. Qed.

Lemma for_of_trace_Forall {A S} (P : Event -> Prop) (xs : list A)
  (body : A -> S -> Async S) (acc : S) :
  (forall x s, Forall P (trace (body x s))) ->
  Forall P (trace (for_of xs body acc)).
Proof.
  intros Hb. revert acc. induction xs as [|x xs IH]; intros acc.
  - constructor.
  - rewrite for_of_cons. apply bind_trace_Forall; [apply Hb | apply IH].
Qed.

(** ** The path pattern resolver *)

Lemma globPromise_value_trace (env : Env) (v : JsValue) :
  Forall resolution_event (trace (globPromise_value env v)).
Proof.
  destruct v; cbn; repeat constructor.
Qed.

Lemma findEntriesSpecified_trace (env : Env) (v : JsValue) :
  Forall resolution_event (trace (findEntriesSpecified env v)).
Proof.
  assert (H : forall items,
             Forall resolution_event
               (trace (if (List.length items =? 0)%nat then ret []
                       else allMapped <- promise_all (map (globPromise_value env) items) ;;
                            ret (fold_left (fun arr list => arr ++ list) allMapped [])))).
  { intros items. destruct (List.length items =? 0)%nat; [constructor|].
    apply bind_trace_Forall; [|intros; constructor].
    apply promise_all_trace_Forall, Forall_forall. intros m Hm.
    apply in_map_iff in Hm as [v' [<- _]]. apply globPromise_value_trace. }
  destruct v as [| | b | n | s | items];
    [exact (Forall_nil _) .. | apply (H [JsStr s]) | apply H].
Qed.

(** The tests of the repository: a string and a one-element array give
    the same result. *)
Example findEntriesSpecified_string :
  findEntriesSpecified (Sample.disk_env Sample.hello_files)
    (JsStr "examples/example-layer-service/hello.default")
  = ([EvGlob "examples/example-layer-service/hello.@(ts|js)?(x)"],
     Resolved ["examples/example-layer-service/hello.js"]).
Proof. reflexivity. Qed.

Example findEntriesSpecified_array :
  findEntriesSpecified (Sample.disk_env Sample.hello_files)
    (JsArray [JsStr "examples/example-layer-service/hello.default"])
  = ([EvGlob "examples/example-layer-service/hello.@(ts|js)?(x)"],
     Resolved ["examples/example-layer-service/hello.js"]).
Proof. reflexivity. Qed.

(** C7, as stated, fails on an array that holds a number: it is not a
    string and not a sequence of strings, it passes the array test, and
    the pattern step throws on its element. *)
Lemma findEntriesSpecified_number_array_rejects :
  is_string (JsArray [JsNumber 123]) = false /\
  is_string_sequence (JsArray [JsNumber 123]) = false /\
  findEntriesSpecified (Sample.disk_env []) (JsArray [JsNumber 123])
  = ([], Rejected (TypeError "pattern.replace is not a function")).
Proof. repeat split. Qed.

(** C7, amended.  An input that is neither a string nor an array gives
    the empty sequence, with no error and no event; so does the empty
    array, with no file-system access. *)
Theorem findEntriesSpecified_defensive (env : Env) (v : JsValue) :
  is_string v = false ->
  is_array v = false ->
  findEntriesSpecified env v = ([], Resolved [])
  /\ findEntriesSpecified env (JsArray []) = ([], Resolved []).
Proof.
  intros Hs Ha. split; [|reflexivity].
  destruct v; try discriminate; reflexivity.
Qed.

Lemma findEntriesSpecified_defensive_witness :
  findEntriesSpecified (Sample.disk_env Sample.hello_files) (JsNumber 123)
  = ([], Resolved [])
  /\ findEntriesSpecified (Sample.disk_env Sample.hello_files) (JsArray [])
     = ([], Resolved []).
Proof.
  apply (findEntriesSpecified_defensive (Sample.disk_env Sample.hello_files)
           (JsNumber 123)); reflexivity.
Defined.

(** ** The entry set resolver *)

Section EntrySet.

Variable env : Env.

Lemma readdir_async_trace (dir : string) :
  Forall resolution_event (trace (readdir_async env dir)).
Proof.
  unfold readdir_async. apply bind_trace_Forall; [repeat constructor|].
  intros _. destruct (readdir env dir); constructor.
Qed.

Lemma resolve_function_trace (backup layerRefName : string)
  (func : FunctionDefinition) (acc : list string) :
  Forall resolution_event (trace (resolve_function env backup layerRefName func acc)).
Proof.
  destruct func as [| image | f]; cbn [resolve_function]; try (repeat constructor).
  destruct (negb _); [constructor|].
  destruct (negb _); [constructor|].
  apply bind_trace_Forall; [apply findEntriesSpecified_trace|].
  intros matched. destruct (List.length matched =? 0)%nat; [|constructor].
  destruct (handler_match (handler f)) as [[handlerName folderName]|]; [|constructor].
  apply bind_trace_Forall; [apply readdir_async_trace|].
  intros files. apply bind_trace_Forall; [|intros; constructor].
  unfold path_join_checked. destruct (if (1 <? _)%nat then _ else _); constructor.
Qed.

(** Entry resolution only matches patterns, lists directories and prints
    the image diagnostic: it never loads a plugin or calls the bundler. *)
Lemma resolvedEntries_trace (sls : Serverless) (layerRefName : string) :
  Forall resolution_event (trace (resolvedEntries env sls layerRefName)).
Proof.
  unfold resolvedEntries. apply for_of_trace_Forall.
  intros func acc. apply resolve_function_trace.
Qed.

(** A function that is not eligible leaves the set as it is and touches
    no file; an image or missing definition prints the diagnostic. *)
Lemma resolve_function_ineligible (backup layerRefName : string)
  (func : FunctionDefinition) (acc : list string) :
  eligible layerRefName func = false ->
  resolve_function env backup layerRefName func acc
  = ((if isFunctionDefinition func then [] else [EvConsoleError image_diagnostic]),
     Resolved acc).
Proof.
  destruct func as [| image | f]; cbn [eligible resolve_function isFunctionDefinition];
    try reflexivity.
  destruct (shouldLayer f) as [[|]|]; cbn [negb andb]; try reflexivity;
    intros ->; reflexivity.
Qed.

Lemma resolve_function_shouldLayer_false (backup layerRefName : string)
  (f : FunctionWithConfig) (acc : list string) :
  shouldLayer f = Some false ->
  resolve_function env backup layerRefName (FunctionDefinitionHandler f) acc = ret acc.
Proof.
  intros H. apply resolve_function_ineligible. cbn [eligible]. rewrite H. reflexivity.
Qed.

Lemma resolve_function_other_layer (backup layerRefName other : string)
  (f : FunctionWithConfig) (acc : list string) :
  layers f = Some [mkLayerRef other] ->
  other <> layerRefName ->
  resolve_function env backup layerRefName (FunctionDefinitionHandler f) acc = ret acc.
Proof.
  intros H Hne. apply resolve_function_ineligible. cbn [eligible]. rewrite H.
  cbn [existsb Ref]. apply String.eqb_neq in Hne. rewrite Hne.
  apply andb_false_r.
Qed.

Lemma for_of_eligible (backup layerRefName : string)
  (funcs : list FunctionDefinition) (acc : list string) :
  outcome (for_of funcs (resolve_function env backup layerRefName) acc)
  = outcome (for_of (filter (eligible layerRefName) funcs)
                    (resolve_function env backup layerRefName) acc)
  /\ filter is_fs_event
       (trace (for_of funcs (resolve_function env backup layerRefName) acc))
     = filter is_fs_event
         (trace (for_of (filter (eligible layerRefName) funcs)
                        (resolve_function env backup layerRefName) acc)).
Proof.
  revert acc.
  induction funcs as [|func funcs IH]; intros acc; [split; reflexivity|].
  cbn [filter]. destruct (eligible layerRefName func) eqn:E.
  - rewrite !for_of_cons.
    destruct (resolve_function env backup layerRefName func acc) as [t [acc'|e]].
    + rewrite !bind_resolved. destruct (IH acc') as [H1 H2].
      unfold outcome, trace in *. cbn [fst snd].
      rewrite !filter_app, H1, H2. split; reflexivity.
    + split; reflexivity.
  - rewrite for_of_cons, (resolve_function_ineligible backup layerRefName func acc E).
    rewrite bind_resolved. destruct (IH acc) as [H1 H2].
    unfold outcome, trace in *. cbn [fst snd].
    rewrite filter_app, H1, H2.
    split; [reflexivity|]. destruct (isFunctionDefinition func); reflexivity.
Qed.

Lemma map_snd_filter {K V} (keep : V -> bool) (l : list (K * V)) :
  map snd (filter (fun kv => keep (snd kv)) l) = filter keep (map snd l).
Proof.
  induction l as [|[k v] l IH]; [reflexivity|]. cbn [filter map snd].
  destruct (keep v); cbn [map snd]; now rewrite IH.
Qed.

(** C3.  Only the functions that have a handler, do not set [shouldLayer]
    to false and name the layer by an equal string contribute: dropping
    every other function changes neither what [resolvedEntries] returns nor
    the file-system accesses it makes. *)
Theorem resolvedEntries_only_eligible (sls : Serverless) (layerRefName : string) :
  outcome (resolvedEntries env sls layerRefName)
  = outcome (resolvedEntries env (restrict_functions (eligible layerRefName) sls)
                             layerRefName)
  /\ filter is_fs_event (trace (resolvedEntries env sls layerRefName))
     = filter is_fs_event
         (trace (resolvedEntries env (restrict_functions (eligible layerRefName) sls)
                                 layerRefName)).
Proof.
  unfold resolvedEntries.
  change (backupFileType_of (restrict_functions (eligible layerRefName) sls))
    with (backupFileType_of sls).
  cbn [restrict_functions service functions]. rewrite map_snd_filter.
  apply for_of_eligible.
Qed.

(** When no declared function is eligible for the layer, nothing is
    resolved and no file is touched. *)
Lemma resolvedEntries_unreferenced (sls : Serverless) (layerRefName : string) :
  forallb (fun func => negb (eligible layerRefName func))
          (map snd (functions (service sls))) = true ->
  outcome (resolvedEntries env sls layerRefName) = Resolved []
  /\ filter is_fs_event (trace (resolvedEntries env sls layerRefName)) = [].
Proof.
  intros H. unfold resolvedEntries.
  destruct (for_of_eligible (backupFileType_of sls) layerRefName
              (map snd (functions (service sls))) []) as [-> ->].
  replace (filter (eligible layerRefName) (map snd (functions (service sls))))
    with (@nil FunctionDefinition); [split; reflexivity|].
  symmetry. induction (map snd (functions (service sls))) as [|func l IH];
    [reflexivity|].
  cbn [forallb filter] in *. apply andb_true_iff in H as [H1 H2].
  apply negb_true_iff in H1. rewrite H1. apply IH, H2.
Qed.

End EntrySet.

(** ** Where the entries come from *)

Section EntryOrigin.

Variable env : Env.

Lemma findEntriesSpecified_handler (h : string) :
  findEntriesSpecified env (JsArray [JsStr h])
  = ([EvGlob (rewrite_extension h)],
     Resolved (map (fun p_name => path_join env [basePath h; p_name])
                   (glob env (rewrite_extension h)))).
Proof. reflexivity. Qed.

Lemma Set_fold_map_In (g : string -> string) (y : string) (xs acc : list string) :
  In y (fold_left (fun s entry => Set_add (g entry) s) xs acc)
  <-> In y (map g xs) \/ In y acc.
Proof.
  revert acc. induction xs as [|x xs IH]; intros acc; simpl.
  - tauto.
  - rewrite IH, Set_add_In. intuition congruence.
Qed.

Lemma for_of_invariant {A S} (I : S -> Prop) (xs : list A)
  (body : A -> S -> Async S) (acc r : S) :
  (forall x s s', In x xs -> I s -> outcome (body x s) = Resolved s' -> I s') ->
  I acc ->
  outcome (for_of xs body acc) = Resolved r ->
  I r.
Proof.
  revert acc. induction xs as [|x xs IH]; intros acc Hb Hacc Hr.
  - cbn in Hr. congruence.
  - rewrite for_of_cons in Hr.
    destruct (body x acc) as [t [acc'|e]] eqn:E.
    + rewrite bind_resolved in Hr. cbn [outcome snd] in Hr.
      apply (IH acc'); [intros; eapply Hb; eauto; now right | | exact Hr].
      apply (Hb x acc acc'); [now left | exact Hacc | now rewrite E].
    + cbn in Hr. discriminate.
Qed.

(** A function whose pattern matches nothing and whose handler does not
    have the shape the fallback expects is skipped: the set is unchanged
    and nothing is thrown. *)
Lemma resolve_function_unmatched_pattern (backup layerRefName : string)
  (f : FunctionWithConfig) (acc : list string) :
  eligible layerRefName (FunctionDefinitionHandler f) = true ->
  glob env (rewrite_extension (handler f)) = [] ->
  handler_match (handler f) = None ->
  resolve_function env backup layerRefName (FunctionDefinitionHandler f) acc
  = ([EvGlob (rewrite_extension (handler f))], Resolved acc).
Proof.
  cbn [eligible resolve_function]. intros He Hg Hm.
  apply andb_true_iff in He as [Hs ->].
  replace (match shouldLayer f with Some b => b | None => true end) with true
    by (destruct (shouldLayer f) as [[|]|]; [reflexivity | discriminate | reflexivity]).
  cbn [negb]. rewrite findEntriesSpecified_handler, Hg, bind_resolved.
  cbn [map fold_left List.length Nat.eqb]. rewrite Hm. reflexivity.
Qed.

Variable on_disk : string -> bool.
Variable entry : string -> string -> string.
Variable backup : string.
Variable hs : list string.


End EntryOrigin.



(** A handler that names its directory by a wildcard is another matter:
    the matched name is joined onto the directory text of the pattern, not
    onto the directory the file was found in, and the path returned names no
    file. *)
Lemma resolvedEntries_wildcard_directory :
  has_glob_magic (basePath "src/*/hello.handler") = true
  /\ glob_contract wildcard_env (Sample.on_disk wildcard_files) posix_entry
       "src/*/hello.handler"
  /\ resolvedEntries wildcard_env wildcard_sls "LayerA"
     = ([EvGlob "src/*/hello.@(ts|js)?(x)"], Resolved ["/app/src/*/hello.ts"])
  /\ Sample.on_disk wildcard_files "/app/src/*/hello.ts" = false.
Proof.
  split; [reflexivity|]. split; [|split; reflexivity].
  intros p_name Hin. vm_compute in Hin. destruct Hin as [<-|[]].
  exists "/app/src/a". split; [reflexivity|]. discriminate.
Qed.



(** C6.  A handler whose directory holds no file with its prefix is not
    skipped: the first match of an empty list is undefined, joining it to
    the folder throws, and the functions declared after it are never
    looked at. *)
Theorem resolvedEntries_no_prefix_match_rejects :
  resolvedEntries (Sample.disk_env Sample.missing_files) Sample.missing_sls "LayerA"
  = ([EvGlob "src/missing.@(ts|js)?(x)"; EvReaddir "/app/src"],
     Rejected (TypeError "The path argument must be of type string. Received undefined")).
Proof. reflexivity. Qed.

(** ** The dependency graph extractor *)

Section Extractor.

Variable env : Env.

(** C4.  When entry resolution gives no entry, [getExternalModules]
    returns the empty sequence right after it: its events are those of the
    resolution, and none of them is a call of the bundler. *)
Theorem getExternalModules_no_entries
  (sls : Serverless) (config : Config) (layerRefName : string) :
  outcome (resolvedEntries env sls layerRefName) = Resolved [] ->
  getExternalModules env sls config layerRefName
  = (trace (resolvedEntries env sls layerRefName), Resolved [])
  /\ Forall (fun ev => forall options, ev <> EvBuild options)
            (trace (getExternalModules env sls config layerRefName)).
Proof.
  intros H.
  assert (E : getExternalModules env sls config layerRefName
              = (trace (resolvedEntries env sls layerRefName), Resolved [])).
  { unfold getExternalModules.
    destruct (resolvedEntries env sls layerRefName) as [t o]. cbn in H. subst o.
    rewrite bind_resolved. cbn. now rewrite app_nil_r. }
  split; [exact E|]. rewrite E. cbn [trace fst].
  eapply Forall_impl; [|apply resolvedEntries_trace].
  intros ev Hev options ->. discriminate Hev.
Qed.

Lemma backupFileType_without_plugin_file (sls : Serverless) :
  backupFileType_of (without_plugin_file sls) = backupFileType_of sls.
Proof.
  unfold backupFileType_of, without_plugin_file. cbn.
  destruct (custom (service sls)); reflexivity.
Qed.

Lemma resolvedEntries_without_plugin_file (sls : Serverless) (layerRefName : string) :
  resolvedEntries env (without_plugin_file sls) layerRefName
  = resolvedEntries env sls layerRefName.
Proof.
  unfold resolvedEntries. now rewrite backupFileType_without_plugin_file.
Qed.

Lemma plugins_without_plugin_file (sls : Serverless) :
  truthy (custom_plugins (esbuildConfig_of (without_plugin_file sls))) = None.
Proof.
  unfold esbuildConfig_of, without_plugin_file. cbn.
  destruct (custom (service sls)) as [c|]; [|reflexivity]. cbn.
  destruct (esbuild c); reflexivity.
Qed.

Lemma build_options_without_plugin_file
  (sls : Serverless) (entries : list string) (modules : list Plugin) :
  build_options env (without_plugin_file sls) entries modules
  = build_options env sls entries modules.
Proof.
  unfold build_options. f_equal.
  unfold esbuildConfig_of, without_plugin_file. cbn.
  destruct (custom (service sls)) as [c|]; [|reflexivity]. cbn.
  destruct (esbuild c); reflexivity.
Qed.

Lemma getExternalModules_no_plugin_file
  (sls : Serverless) (config : Config) (layerRefName : string)
  (t : list Event) (entries : list string) :
  truthy (custom_plugins (esbuildConfig_of sls)) = None ->
  resolvedEntries env sls layerRefName = (t, Resolved entries) ->
  entries <> [] ->
  getExternalModules env sls config layerRefName
  = (t ++ [EvBuild (build_options env sls entries [])],
     extraction_outcome env sls config entries).
Proof.
  intros Hp Hr Hne. unfold getExternalModules, extraction_outcome.
  rewrite Hr, Hp, bind_resolved.
  destruct entries as [|e es]; [congruence|]. cbn [List.length Nat.eqb].
  rewrite bind_ret_l. unfold esbuild_build_async.
  cbn -[build_options filterStage rawSpecifiers].
  destruct (esbuild_build env (build_options env sls (e :: es) []));
    reflexivity.
Qed.

(** C9.  With a plugin file configured and its import rejected, the
    failure is logged, the bundler is called with the externals plugin
    alone, and the extraction ends as it does with no plugin file. *)
Theorem getExternalModules_plugin_load_failure
  (sls : Serverless) (config : Config) (layerRefName pluginFile : string)
  (err : JsError) (t : list Event) (entries : list string) :
  truthy (custom_plugins (esbuildConfig_of sls)) = Some pluginFile ->
  import_default env (path_resolve env [process_cwd env; pluginFile]) = inl err ->
  resolvedEntries env sls layerRefName = (t, Resolved entries) ->
  entries <> [] ->
  trace (getExternalModules env sls config layerRefName)
  = t ++ [EvImport (path_resolve env [process_cwd env; pluginFile]);
          EvLoggerError (import_failed_message pluginFile);
          EvConsoleErrorObject err;
          EvBuild (build_options env sls entries [])]
  /\ plugins (build_options env sls entries []) = [nodeExternalsPlugin env]
  /\ outcome (getExternalModules env sls config layerRefName)
     = extraction_outcome env sls config entries
  /\ outcome (getExternalModules env sls config layerRefName)
     = outcome (getExternalModules env (without_plugin_file sls) config layerRefName).
Proof.
  intros Hp Hi Hr Hne.
  assert (E : getExternalModules env sls config layerRefName
              = (t ++ [EvImport (path_resolve env [process_cwd env; pluginFile]);
                       EvLoggerError (import_failed_message pluginFile);
                       EvConsoleErrorObject err;
                       EvBuild (build_options env sls entries [])],
                 extraction_outcome env sls config entries)).
  { unfold getExternalModules, extraction_outcome.
    rewrite Hr, Hp, bind_resolved.
    destruct entries as [|e es]; [congruence|]. cbn [List.length Nat.eqb].
    unfold load_plugins, esbuild_build_async. rewrite Hi.
    cbn -[build_options filterStage rawSpecifiers].
    destruct (esbuild_build env (build_options env sls (e :: es) []));
      reflexivity. }
  rewrite E. repeat split.
  rewrite (getExternalModules_no_plugin_file (without_plugin_file sls) config
             layerRefName t entries (plugins_without_plugin_file sls)
             (eq_trans (resolvedEntries_without_plugin_file sls layerRefName) Hr) Hne).
  unfold extraction_outcome. now rewrite build_options_without_plugin_file.
Qed.

(** A plugin module that loads but whose default export is no array is
    another matter: the failure is logged, [modules] keeps the export, and
    spreading it into the plugin list throws before the bundler is called. *)
Lemma getExternalModules_default_export_no_array
  (sls : Serverless) (config : Config) (layerRefName pluginFile : string)
  (t : list Event) (entries : list string) :
  truthy (custom_plugins (esbuildConfig_of sls)) = Some pluginFile ->
  import_default env (path_resolve env [process_cwd env; pluginFile]) = inr None ->
  resolvedEntries env sls layerRefName = (t, Resolved entries) ->
  entries <> [] ->
  getExternalModules env sls config layerRefName
  = (t ++ [EvImport (path_resolve env [process_cwd env; pluginFile]);
           EvLoggerError (import_failed_message pluginFile);
           EvConsoleErrorObject (TypeError "modules.filter is not a function")],
     Rejected (TypeError "modules is not iterable")).
Proof.
  intros Hp Hi Hr Hne. unfold getExternalModules.
  rewrite Hr, Hp, bind_resolved.
  destruct entries as [|e es]; [congruence|]. cbn [List.length Nat.eqb].
  unfold load_plugins. rewrite Hi. reflexivity.
Qed.

End Extractor.

Lemma getExternalModules_no_entries_witness :
  getExternalModules (Sample.disk_env Sample.hello_files) Sample.hello_sls
                     Sample.config_both "LayerB"
  = ([], Resolved [])
  /\ Forall (fun ev => forall options, ev <> EvBuild options)
            (trace (getExternalModules (Sample.disk_env Sample.hello_files)
                      Sample.hello_sls Sample.config_both "LayerB")).
Proof.
  apply (getExternalModules_no_entries (Sample.disk_env Sample.hello_files)
           Sample.hello_sls Sample.config_both "LayerB").
  reflexivity.
Defined.

Lemma getExternalModules_plugin_load_failure_witness :
  outcome (getExternalModules (Sample.disk_env Sample.hello_files) Sample.hello_sls
             Sample.config_both "LayerA")
  = Resolved ["aws-sdk"; "uuid"]
  /\ outcome (getExternalModules (Sample.disk_env Sample.hello_files) Sample.hello_sls
                Sample.config_both "LayerA")
     = outcome (getExternalModules (Sample.disk_env Sample.hello_files)
                  (without_plugin_file Sample.hello_sls) Sample.config_both "LayerA").
Proof.
  assert (Hne : ["/app/examples/example-layer-service/hello.js"] <> @nil string)
    by discriminate.
  destruct (getExternalModules_plugin_load_failure
              (Sample.disk_env Sample.hello_files) Sample.hello_sls Sample.config_both
              "LayerA" "plugins.js" (ImportError "Cannot find module")
              [EvGlob "examples/example-layer-service/hello.@(ts|js)?(x)"]
              ["/app/examples/example-layer-service/hello.js"]
              eq_refl eq_refl eq_refl Hne) as [_ [_ [H1 H2]]].
  split; [exact H1 | exact H2].
Defined.

(** * Further properties of the code *)

(** ** More on the module name normalizer *)

Lemma split_ne_shape (sep : ascii) (s : string) :
  includes_char sep (fst (split_ne sep s)) = false
  /\ Forall (fun seg => includes_char sep seg = false) (snd (split_ne sep s)).
Proof.
  induction s as [|c s [IH1 IH2]]; cbn [split_ne]; [split; [reflexivity|constructor]|].
  destruct (split_ne sep s) as [seg rest]. cbn [fst snd] in *.
  destruct (Ascii.eqb c sep) eqn:E; cbn [fst snd includes_char].
  - split; [reflexivity|]. constructor; assumption.
  - rewrite E, IH1. split; [reflexivity | assumption].
Qed.

Lemma split_ne_fst_prefix (sep : ascii) (s : string) :
  startsWith s (fst (split_ne sep s)) = true.
Proof.
  induction s as [|c s IH]; cbn [split_ne]; [reflexivity|].
  destruct (split_ne sep s) as [seg rest]. cbn [fst] in *.
  destruct (Ascii.eqb c sep); cbn [fst startsWith]; [reflexivity|].
  now rewrite Ascii.eqb_refl, IH.
Qed.

Lemma split_ne_second_prefix (sep : ascii) (s g r : string) (rest : list string) :
  split_ne sep s = (g, r :: rest) ->
  startsWith s (g ++ String sep r) = true.
Proof.
  revert g. induction s as [|c s IH]; intros g; cbn [split_ne]; [discriminate|].
  pose proof (split_ne_fst_prefix sep s) as Hp.
  destruct (split_ne sep s) as [seg rest0]. cbn [fst] in Hp.
  destruct (Ascii.eqb c sep) eqn:E.
  - intros [= <- <- <-]. cbn [append startsWith]. now rewrite E, Hp.
  - intros [= <- ->]. cbn [append startsWith].
    rewrite Ascii.eqb_refl. cbn [andb]. now apply IH.
Qed.

Lemma template_no_slash (rest : list string) :
  Forall (fun seg => includes_char "/" seg = false) rest ->
  includes_char "/" (template (nth_error rest 0)) = false.
Proof.
  intros H. destruct rest as [|r rest]; [reflexivity|].
  cbn [nth_error template]. now inversion H.
Qed.

(** X1.  Normalizing twice is normalizing once, for every specifier. *)
Theorem fixModuleName_idempotent (specifier : string) :
  fixModuleName (fixModuleName specifier) = fixModuleName specifier.
Proof.
  destruct (split_ne_shape "/" specifier) as [Hg Hr].
  unfold fixModuleName at 2 3.
  destruct (startsWith specifier "@") eqn:Hs.
  - destruct specifier as [|c s]; [discriminate|].
    cbn [startsWith] in Hs. rewrite andb_true_r in Hs.
    apply Ascii.eqb_eq in Hs. subst c.
    cbn [split_ne] in *. destruct (split_ne "/" s) as [seg rest].
    change (Ascii.eqb "@" "/") with false in *. cbn [fst snd] in *.
    pose proof (template_no_slash rest Hr) as Ht.
    set (pkg := template (nth_error rest 0)) in *.
    change (String "@" seg ++ "/" ++ pkg)%string
      with (String "@" seg ++ String "/" pkg)%string.
    unfold fixModuleName.
    change (startsWith (String "@" seg ++ String "/" pkg) "@") with true.
    rewrite split_ne_app by exact Hg.
    rewrite (split_ne_no_sep "/" pkg Ht). reflexivity.
  - destruct (split_ne "/" specifier) as [seg rest] eqn:E. cbn [fst snd] in *.
    assert (Hseg : startsWith seg "@" = false).
    { destruct specifier as [|c s]; cbn [split_ne] in E.
      - now injection E as <- <-.
      - destruct (split_ne "/" s) as [seg' rest'].
        destruct (Ascii.eqb c "/"); injection E as <- <-; [reflexivity|].
        exact Hs. }
    unfold fixModuleName. rewrite Hseg, (split_ne_no_sep "/" seg Hg). reflexivity.
Qed.

(** X2.  The normal form is cut out of the specifier: it is a prefix of
    it, whenever the specifier is unscoped or has a second segment. *)
Theorem fixModuleName_prefix (specifier : string) :
  startsWith specifier "@" = false \/ includes_char "/" specifier = true ->
  startsWith specifier (fixModuleName specifier) = true.
Proof.
  intros H. unfold fixModuleName.
  destruct (startsWith specifier "@") eqn:Hs.
  - destruct H as [H|H]; [discriminate|].
    pose proof (split_ne_includes "/" specifier H) as Hne.
    destruct (split_ne "/" specifier) as [seg rest] eqn:E. cbn [snd] in Hne.
    destruct rest as [|r rest]; [congruence|]. cbn [nth_error template].
    exact (split_ne_second_prefix "/" specifier seg r rest E).
  - pose proof (split_ne_fst_prefix "/" specifier) as Hp.
    destruct (split_ne "/" specifier) as [seg rest]. exact Hp.
Qed.

Lemma fixModuleName_prefix_witness :
  startsWith "@scope/pkg/deep/er" (fixModuleName "@scope/pkg/deep/er") = true.
Proof.
  apply fixModuleName_prefix. right. reflexivity.
Defined.

(** X3.  The normal form has the shape of a package name: no separator
    for an unscoped specifier, exactly two segments for a scoped one. *)
Theorem fixModuleName_shape (specifier : string) :
  (startsWith specifier "@" = false ->
   includes_char "/" (fixModuleName specifier) = false)
  /\ (startsWith specifier "@" = true ->
      List.length (split "/" (fixModuleName specifier)) = 2
      /\ startsWith (fixModuleName specifier) "@" = true).
Proof.
  destruct (split_ne_shape "/" specifier) as [Hg Hr].
  unfold fixModuleName. split; intros Hs; rewrite Hs.
  - destruct (split_ne "/" specifier) as [seg rest]. exact Hg.
  - destruct specifier as [|c s]; [discriminate|].
    cbn [startsWith] in Hs. rewrite andb_true_r in Hs.
    apply Ascii.eqb_eq in Hs. subst c.
    cbn [split_ne] in *. destruct (split_ne "/" s) as [seg rest].
    change (Ascii.eqb "@" "/") with false in *. cbn [fst snd] in *.
    pose proof (template_no_slash rest Hr) as Ht.
    set (pkg := template (nth_error rest 0)) in *.
    change (String "@" seg ++ "/" ++ pkg)%string
      with (String "@" seg ++ String "/" pkg)%string.
    split; [|reflexivity].
    unfold split. rewrite split_ne_app by exact Hg.
    rewrite (split_ne_no_sep "/" pkg Ht). reflexivity.
Qed.

Lemma fixModuleName_shape_witness :
  includes_char "/" (fixModuleName "uuid/v4") = false
  /\ List.length (split "/" (fixModuleName "@scope/pkg/deep")) = 2.
Proof.
  split.
  - apply (proj1 (fixModuleName_shape "uuid/v4")). reflexivity.
  - apply (proj2 (fixModuleName_shape "@scope/pkg/deep")). reflexivity.
Defined.

(** ** The patterns built for the file system *)

Lemma startsWith_app (a b c : string) :
  startsWith (a ++ b) (a ++ c) = startsWith b c.
Proof.
  induction a as [|x a IH]; [reflexivity|].
  cbn [append startsWith]. now rewrite Ascii.eqb_refl, IH.
Qed.

Lemma startsWith_refl_app (a b : string) : startsWith (a ++ b) a = true.
Proof.
  induction a as [|x a IH]; [reflexivity|].
  cbn [append startsWith]. now rewrite Ascii.eqb_refl, IH.
Qed.

Lemma drop_app (a b : string) : drop (String.length a) (a ++ b) = b.
Proof. induction a as [|x a IH]; [destruct b; reflexivity | exact IH]. Qed.

Lemma append_empty_r (a : string) : (a ++ "")%string = a.
Proof. induction a as [|x a IH]; [reflexivity | cbn; now rewrite IH]. Qed.

Lemma append_assoc (a b c : string) : ((a ++ b) ++ c)%string = (a ++ (b ++ c))%string.
Proof. induction a as [|x a IH]; [reflexivity | cbn; now rewrite IH]. Qed.

Lemma includes_char_app (c : ascii) (a b : string) :
  includes_char c (a ++ b) = includes_char c a || includes_char c b.
Proof.
  induction a as [|x a IH]; [reflexivity|].
  cbn [append includes_char]. now rewrite IH, orb_assoc.
Qed.

Lemma all_chars_app (p : ascii -> bool) (a b : string) :
  all_chars p (a ++ b) = all_chars p a && all_chars p b.
Proof.
  induction a as [|x a IH]; [reflexivity|].
  cbn [append all_chars]. now rewrite IH, andb_assoc.
Qed.

Lemma replace_first_unfold (pat rep s : string) :
  replace_first pat rep s
  = if startsWith s pat then (rep ++ drop (String.length pat) s)%string
    else match s with
         | EmptyString => EmptyString
         | String c s' => String c (replace_first pat rep s')
         end.
Proof. destruct s; reflexivity. Qed.

(** Removing a prefix with [replace]. *)
Lemma replace_first_prefix (pat rest : string) :
  replace_first pat EmptyString (pat ++ rest) = rest.
Proof.
  rewrite replace_first_unfold, startsWith_refl_app, drop_app. reflexivity.
Qed.

Lemma rewrite_extension_no_dot (s : string) :
  includes_char "." s = false -> rewrite_extension s = s.
Proof.
  induction s as [|c s IH]; [reflexivity|].
  cbn [includes_char rewrite_extension]. intros H.
  apply orb_false_iff in H as [Hc Hs]. rewrite Hc. cbn [andb].
  now rewrite (IH Hs).
Qed.

Lemma rewrite_extension_skip (c : ascii) (a b : string) :
  rewrite_extension (String c (a ++ String "." b))
  = String c (rewrite_extension (a ++ String "." b)).
Proof.
  cbn [rewrite_extension].
  replace (all_chars is_word_char (a ++ String "." b)) with false.
  - now rewrite andb_false_r.
  - rewrite all_chars_app. cbn [all_chars].
    change (is_word_char ".") with false. cbn [andb]. now rewrite andb_false_r.
Qed.

(** X4.  A trailing [.word] that is no source extension (the exported
    name of a handler) is replaced by the alternative of the four source
    extensions, whatever dots the text before it holds. *)
Theorem rewrite_extension_export (stem ext : string) :
  nonempty ext = true ->
  all_chars is_word_char ext = true ->
  is_source_extension ext = false ->
  rewrite_extension (stem ++ String "." ext) = (stem ++ ".@(ts|js)?(x)")%string.
Proof.
  intros Hn Hw Hs. induction stem as [|c stem IH].
  - cbn [append rewrite_extension]. rewrite Hn, Hw, Hs. reflexivity.
  - cbn [append]. now rewrite rewrite_extension_skip, IH.
Qed.

Lemma rewrite_extension_export_witness :
  rewrite_extension ("src/v1.2/hello" ++ String "." "default")
  = ("src/v1.2/hello" ++ ".@(ts|js)?(x)")%string.
Proof.
  apply rewrite_extension_export; reflexivity.
Defined.

(** X5.  A path that already ends in [.js], [.jsx], [.ts] or [.tsx] is
    matched as it is, whatever dots the text before the extension holds. *)
Theorem rewrite_extension_source (stem ext : string) :
  is_source_extension ext = true ->
  rewrite_extension (stem ++ String "." ext) = (stem ++ String "." ext)%string.
Proof.
  intros Hs. induction stem as [|c stem IH].
  - cbn [append rewrite_extension]. rewrite Hs. cbn [negb andb].
    rewrite rewrite_extension_no_dot; [reflexivity|].
    apply string_in_In in Hs.
    repeat (destruct Hs as [<-|Hs]; [reflexivity|]). destruct Hs.
  - cbn [append]. now rewrite rewrite_extension_skip, IH.
Qed.

Lemma rewrite_extension_source_witness :
  rewrite_extension ("src/a.b/hello" ++ String "." "tsx")
  = ("src/a.b/hello" ++ String "." "tsx")%string.
Proof.
  apply rewrite_extension_source. reflexivity.
Defined.

Lemma last_sep_no_slash (t : string) :
  includes_char "/" t = false -> last_sep t = None.
Proof.
  induction t as [|c t IH]; [reflexivity|].
  cbn [includes_char last_sep]. intros H.
  apply orb_false_iff in H as [Hc Ht]. now rewrite (IH Ht), Hc.
Qed.

Lemma last_sep_app (g file : string) :
  nonempty file = true ->
  includes_char "/" file = false ->
  last_sep (g ++ String "/" file) = Some g.
Proof.
  intros Hn Hf. induction g as [|c g IH].
  - cbn [append last_sep]. now rewrite (last_sep_no_slash file Hf), Hn.
  - cbn [append last_sep]. now rewrite IH.
Qed.

(** X6.  The directory part of a pattern [dir/file] of 7-bit characters
    without line break is [dir]: everything before the last separator. *)
Theorem basePath_dir (dir file : string) :
  ascii_only dir = true ->
  ascii_only file = true ->
  nonempty dir = true ->
  nonempty file = true ->
  includes_char "/" file = false ->
  no_line_terminator dir = true ->
  no_line_terminator file = true ->
  basePath (dir ++ String "/" file) = dir.
Proof.
  intros _ _ Hd Hn Hf Hld Hlf. unfold basePath.
  rewrite includes_char_app. cbn [includes_char].
  rewrite Ascii.eqb_refl, orb_true_r.
  destruct dir as [|c dir]; [discriminate|].
  cbn [append replace_with_dir dir_match].
  change (all_chars (fun a => negb (is_line_terminator a))
            (String c (dir ++ String "/" file)))
    with (no_line_terminator (String c dir ++ String "/" file)).
  unfold no_line_terminator in *. rewrite all_chars_app, Hld.
  cbn [all_chars andb]. change (is_line_terminator "/") with false.
  cbn [negb andb]. rewrite Hlf, (last_sep_app dir file Hn Hf). reflexivity.
Qed.

Lemma basePath_dir_witness :
  basePath ("examples/example-layer-service" ++ String "/" "hello.default")
  = "examples/example-layer-service".
Proof.
  apply basePath_dir; reflexivity.
Defined.

(** ** The shape the fallback reads off a handler *)

Lemma match_ext_prefix (r : string) : startsWith r (match_ext r) = true.
Proof.
  unfold match_ext.
  destruct r as [|c [|a [|s r']]]; try reflexivity.
  destruct (Ascii.eqb s "s") eqn:Es.
  - apply Ascii.eqb_eq in Es. subst s.
    destruct (negb (is_line_terminator c) && (Ascii.eqb a "j" || Ascii.eqb a "t"));
      [|reflexivity].
    cbn [startsWith]. rewrite !Ascii.eqb_refl. cbn [andb].
    destruct r' as [|x r'']; [reflexivity|].
    destruct (Ascii.eqb x "x") eqn:Ex.
    + apply Ascii.eqb_eq in Ex. subst x. reflexivity.
    + destruct x as [[] [] [] [] [] [] [] []]; try reflexivity; discriminate.
  - destruct s as [[] [] [] [] [] [] [] []]; try reflexivity; discriminate.
Qed.

Lemma take_drop_while (p : ascii -> bool) (s : string) :
  (take_while p s ++ drop_while p s)%string = s.
Proof.
  induction s as [|c s IH]; [reflexivity|].
  cbn [take_while drop_while]. destruct (p c); [|reflexivity].
  cbn [append]. now rewrite IH.
Qed.

Lemma match_tail_spec (s t : string) :
  match_tail s = Some t -> nonempty t = true /\ startsWith s t = true.
Proof.
  unfold match_tail.
  set (p := fun c => negb (Ascii.eqb c ".")).
  destruct (nonempty (take_while p s)) eqn:E; [|discriminate].
  intros [= <-]. split.
  - destruct (take_while p s); [discriminate | reflexivity].
  - rewrite <- (take_drop_while p s) at 1.
    rewrite startsWith_app. apply match_ext_prefix.
Qed.

Lemma match_dirs_spec (s : string) :
  forall (in_seg : bool) (d t : string),
    match_dirs in_seg s = Some (d, t) ->
    nonempty t = true
    /\ startsWith s (d ++ t) = true
    /\ ((in_seg = false /\ d = EmptyString)
        \/ exists d', d = (d' ++ "/")%string).
Proof.
  induction s as [|c s IH]; intros in_seg d t.
  - destruct in_seg; cbn [match_dirs]; [discriminate|].
    destruct (match_tail "") as [t'|] eqn:Et; [|discriminate].
    intros [= <- <-]. destruct (match_tail_spec _ _ Et) as [H1 H2].
    repeat split; auto.
  - assert (Hext : forall b d0 t0,
               match match_dirs b s with
               | Some (d1, t1) => Some (String c d1, t1)
               | None => None
               end = Some (d0, t0) ->
               (b = false -> Ascii.eqb c "/" = true) ->
               nonempty t0 = true /\ startsWith (String c s) (d0 ++ t0) = true
               /\ exists d', d0 = (d' ++ "/")%string).
    { intros b d0 t0 H Hb.
      destruct (match_dirs b s) as [[d1 t1]|] eqn:E; [|discriminate].
      injection H as <- <-. destruct (IH b d1 t1 E) as [Hn [Hp Hd]].
      split; [exact Hn|]. split.
      - cbn [append startsWith]. now rewrite Ascii.eqb_refl, Hp.
      - destruct Hd as [[-> ->] | [d' ->]].
        + exists EmptyString. apply Ascii.eqb_eq in Hb; [now subst c | reflexivity].
        + exists (String c d'). reflexivity. }
    assert (Hno : match match_tail (String c s) with
                  | Some t1 => Some (EmptyString, t1)
                  | None => None
                  end = Some (d, t) ->
                  nonempty t = true /\ startsWith (String c s) (d ++ t) = true
                  /\ ((false = false /\ d = EmptyString)
                      \/ exists d', d = (d' ++ "/")%string)).
    { destruct (match_tail (String c s)) as [t1|] eqn:Et; [|discriminate].
      intros [= <- <-]. destruct (match_tail_spec _ _ Et) as [H1 H2].
      repeat split; auto. }
    destruct in_seg; cbn [match_dirs].
    + destruct (Ascii.eqb c "/") eqn:Ec.
      * intros H. destruct (Hext false d t H (fun _ => eq_refl)) as [H1 [H2 H3]].
        auto.
      * destruct (Ascii.eqb c "010"); [discriminate|].
        intros H. destruct (Hext true d t H) as [H1 [H2 H3]]; [discriminate|].
        auto.
    + destruct (Ascii.eqb c "/" || Ascii.eqb c "010"); [exact Hno|].
      destruct (match_dirs true s) as [[d1 t1]|] eqn:E; [|exact Hno].
      intros H.
      destruct (Hext true d t) as [H1 [H2 H3]];
        [rewrite E; exact H | discriminate | auto].
Qed.

(** X7.  Whatever the handler, a match of the fallback pattern gives a
    handler name that is a prefix of the handler and starts with the folder
    name; the folder name is empty or ends with a separator; and the file
    name the code computes by removing the folder name is the rest of the
    handler name, which is never empty. *)
Theorem handler_match_shape (h handlerName folderName : string) :
  handler_match h = Some (handlerName, folderName) ->
  startsWith h handlerName = true
  /\ (folderName = EmptyString \/ exists d, folderName = (d ++ "/")%string)
  /\ handlerName
     = (folderName ++ replace_first folderName EmptyString handlerName)%string
  /\ nonempty (replace_first folderName EmptyString handlerName) = true.
Proof.
  unfold handler_match.
  destruct (match_dirs false h) as [[d t]|] eqn:E; [|discriminate].
  intros [= <- <-]. destruct (match_dirs_spec h false d t E) as [Hn [Hp Hd]].
  rewrite replace_first_prefix. repeat split; auto.
  destruct Hd as [[_ ->] | Hd]; [now left | now right].
Qed.

Lemma handler_match_shape_witness :
  startsWith "src/sub/hello.default" "src/sub/hello" = true
  /\ ("src/sub/" = EmptyString \/ exists d, "src/sub/" = (d ++ "/")%string)
  /\ "src/sub/hello"
     = ("src/sub/" ++ replace_first "src/sub/" EmptyString "src/sub/hello")%string
  /\ nonempty (replace_first "src/sub/" EmptyString "src/sub/hello") = true.
Proof.
  apply (handler_match_shape "src/sub/hello.default" "src/sub/hello" "src/sub/").
  reflexivity.
Defined.

Lemma match_dirs_no_slash (u : string) :
  includes_char "/" u = false -> match_dirs true u = None.
Proof.
  induction u as [|c u IH]; [reflexivity|].
  cbn [includes_char match_dirs]. intros H.
  apply orb_false_iff in H as [Hc Hu]. rewrite Hc.
  destruct (Ascii.eqb c "010"); [reflexivity|]. now rewrite (IH Hu).
Qed.

Lemma take_while_name (name rest : string) :
  all_chars is_name_char name = true ->
  take_while (fun c => negb (Ascii.eqb c ".")) (name ++ String "." rest) = name
  /\ drop_while (fun c => negb (Ascii.eqb c ".")) (name ++ String "." rest)
     = String "." rest.
Proof.
  induction name as [|c name IH]; [split; reflexivity|].
  cbn [all_chars append take_while drop_while]. intros H.
  apply andb_true_iff in H as [Hc Hn]. unfold is_name_char in Hc.
  apply negb_true_iff, orb_false_iff in Hc as [Hc _]. rewrite Hc. cbn [negb].
  destruct (IH Hn) as [-> ->]. split; reflexivity.
Qed.

Lemma match_dirs_name (name export : string) :
  nonempty name = true ->
  all_chars is_name_char name = true ->
  includes_char "/" export = false ->
  match_dirs false (name ++ String "." export)
  = Some (EmptyString, (name ++ match_ext (String "." export))%string).
Proof.
  intros Hn Hc He.
  assert (Ht : match_tail (name ++ String "." export)
               = Some (name ++ match_ext (String "." export))%string).
  { unfold match_tail. destruct (take_while_name name export Hc) as [-> ->].
    now rewrite Hn. }
  assert (Hs : includes_char "/" (name ++ String "." export) = false).
  { rewrite includes_char_app. cbn [includes_char]. rewrite He.
    change (Ascii.eqb "." "/") with false. cbn [orb]. rewrite orb_false_r.
    clear -Hc. induction name as [|c name IH]; [reflexivity|].
    cbn [all_chars includes_char] in *. apply andb_true_iff in Hc as [H1 H2].
    unfold is_name_char in H1. apply negb_true_iff, orb_false_iff in H1 as [_ H1].
    now rewrite H1, (IH H2). }
  destruct name as [|c name]; [discriminate|].
  cbn [append] in *. cbn [match_dirs]. rewrite Ht.
  cbn [includes_char] in Hs. apply orb_false_iff in Hs as [Hc1 Hs].
  rewrite Hc1. cbn [orb].
  destruct (Ascii.eqb c "010"); [reflexivity|].
  now rewrite (match_dirs_no_slash _ Hs).
Qed.

Lemma match_dirs_in_segment (seg rest d t : string) :
  all_chars is_segment_char seg = true ->
  match_dirs false rest = Some (d, t) ->
  match_dirs true (seg ++ String "/" rest) = Some ((seg ++ String "/" d)%string, t).
Proof.
  intros Hs Hr. induction seg as [|c seg IH].
  - cbn [append match_dirs]. rewrite Ascii.eqb_refl, Hr. reflexivity.
  - cbn [all_chars] in Hs. apply andb_true_iff in Hs as [Hc Hs].
    unfold is_segment_char in Hc. apply negb_true_iff, orb_false_iff in Hc as [H1 H2].
    cbn [append match_dirs]. now rewrite H1, H2, (IH Hs).
Qed.

Lemma match_dirs_segment (seg rest d t : string) :
  is_dir_segment seg = true ->
  match_dirs false rest = Some (d, t) ->
  match_dirs false (seg ++ String "/" rest) = Some ((seg ++ String "/" d)%string, t).
Proof.
  unfold is_dir_segment. intros Hs Hr. apply andb_true_iff in Hs as [Hn Hs].
  destruct seg as [|c seg]; [discriminate|].
  cbn [all_chars] in Hs. apply andb_true_iff in Hs as [Hc Hs].
  unfold is_segment_char in Hc. apply negb_true_iff in Hc.
  cbn [append match_dirs]. rewrite Hc.
  now rewrite (match_dirs_in_segment seg rest d t Hs Hr).
Qed.

Lemma match_dirs_folder (segs : list string) (rest t : string) :
  forallb is_dir_segment segs = true ->
  match_dirs false rest = Some (EmptyString, t) ->
  match_dirs false (folder_of segs ++ rest) = Some (folder_of segs, t).
Proof.
  intros Hs Hr. induction segs as [|seg segs IH]; [exact Hr|].
  cbn [forallb] in Hs. apply andb_true_iff in Hs as [H1 H2].
  cbn [folder_of]. rewrite append_assoc. cbn [append].
  apply match_dirs_segment; [exact H1 | exact (IH H2)].
Qed.

(** X8.  For a handler written as directories, a file name and an
    exported name, the fallback reads the folder name as the directories
    with their separators and the handler name as the path up to the dot;
    the file name it looks for in the directory is the one written. *)
Theorem handler_match_path (segs : list string) (name export : string) :
  forallb is_dir_segment segs = true ->
  nonempty name = true ->
  all_chars is_name_char name = true ->
  includes_char "/" export = false ->
  let handlerName := (folder_of segs ++ name ++ match_ext (String "." export))%string in
  handler_match (folder_of segs ++ name ++ String "." export)
  = Some (handlerName, folder_of segs)
  /\ replace_first (folder_of segs) EmptyString handlerName
     = (name ++ match_ext (String "." export))%string.
Proof.
  intros Hs Hn Hc He handlerName. split.
  - unfold handler_match.
    now rewrite (match_dirs_folder segs _ _ Hs (match_dirs_name name export Hn Hc He)).
  - apply replace_first_prefix.
Qed.

Lemma handler_match_path_witness :
  handler_match "src/sub/hello.default" = Some ("src/sub/hello", "src/sub/")
  /\ replace_first "src/sub/" EmptyString "src/sub/hello" = "hello".
Proof.
  apply (handler_match_path ["src"; "sub"] "hello" "default"); reflexivity.
Defined.

(** ** More on the path pattern resolver *)

Lemma fold_left_app_concat {A} (ls : list (list A)) (acc : list A) :
  fold_left (fun arr list => arr ++ list) ls acc = acc ++ concat ls.
Proof.
  revert acc. induction ls as [|l ls IH]; intros acc; cbn [fold_left concat].
  - now rewrite app_nil_r.
  - now rewrite IH, app_assoc.
Qed.

Lemma globPromise_eq (env : Env) (pattern : string) :
  globPromise env pattern
  = ([EvGlob (rewrite_extension pattern)], Resolved (matches_of env pattern)).
Proof. reflexivity. Qed.

Lemma promise_all_strings (env : Env) (patterns : list string) :
  promise_all (map (globPromise_value env) (map JsStr patterns))
  = (map (fun p => EvGlob (rewrite_extension p)) patterns,
     Resolved (map (matches_of env) patterns)).
Proof.
  induction patterns as [|p ps IH]; [reflexivity|].
  cbn [map promise_all globPromise_value]. rewrite globPromise_eq, IH. reflexivity.
Qed.

(** X9.  For an array of strings, [findEntriesSpecified] does not
    reject; it starts one pattern match per specifier, in the order of the
    array, and returns the matches of each specifier, in the same order, one
    after the other and without removing duplicates. *)
Theorem findEntriesSpecified_strings (env : Env) (patterns : list string) :
  findEntriesSpecified env (JsArray (map JsStr patterns))
  = (map (fun p => EvGlob (rewrite_extension p)) patterns,
     Resolved (flat_map (matches_of env) patterns)).
Proof.
  unfold findEntriesSpecified.
  destruct patterns as [|p ps]; [reflexivity|].
  cbn [List.length map Nat.eqb].
  change (globPromise_value env (JsStr p) :: map (globPromise_value env) (map JsStr ps))
    with (map (globPromise_value env) (map JsStr (p :: ps))).
  rewrite promise_all_strings, bind_resolved. cbn [ret trace outcome fst snd].
  now rewrite app_nil_r, fold_left_app_concat, flat_map_concat_map.
Qed.

Lemma promise_all_values (env : Env) (items : list JsValue) :
  trace (promise_all (map (globPromise_value env) items)) = globs_of items
  /\ (forallb is_string items = false ->
      outcome (promise_all (map (globPromise_value env) items))
      = Rejected (TypeError "pattern.replace is not a function")).
Proof.
  induction items as [|v items [IHt IHo]]; [split; [reflexivity | discriminate]|].
  cbn [map promise_all forallb globs_of flat_map].
  destruct (promise_all (map (globPromise_value env) items)) as [t' os].
  unfold trace, outcome in *. cbn [fst snd] in *.
  destruct v; cbn [globPromise_value throw is_string andb fst snd app];
    try (split; [now rewrite IHt | reflexivity]).
  rewrite globPromise_eq. cbn [fst snd app]. split; [now rewrite IHt|].
  intros H. now rewrite (IHo H).
Qed.

(** X10.  An array that holds anything but strings makes the promise
    reject with a type error, whatever else it holds; the pattern matches of
    its string elements have been started all the same. *)
Theorem findEntriesSpecified_mixed_array (env : Env) (items : list JsValue) :
  forallb is_string items = false ->
  findEntriesSpecified env (JsArray items)
  = (globs_of items, Rejected (TypeError "pattern.replace is not a function")).
Proof.
  intros H. unfold findEntriesSpecified.
  destruct items as [|v items]; [discriminate|].
  cbn [List.length Nat.eqb].
  destruct (promise_all_values env (v :: items)) as [Ht Ho]. specialize (Ho H).
  destruct (promise_all (map (globPromise_value env) (v :: items))) as [t o].
  unfold trace, outcome in *. cbn [fst snd] in *. subst t o. reflexivity.
Qed.

Lemma findEntriesSpecified_mixed_array_witness :
  findEntriesSpecified (Sample.disk_env Sample.hello_files)
    (JsArray [JsStr "a/b.handler"; JsNull; JsStr "c.handler"])
  = ([EvGlob "a/b.@(ts|js)?(x)"; EvGlob "c.@(ts|js)?(x)"],
     Rejected (TypeError "pattern.replace is not a function")).
Proof.
  apply (findEntriesSpecified_mixed_array (Sample.disk_env Sample.hello_files)
           [JsStr "a/b.handler"; JsNull; JsStr "c.handler"]).
  reflexivity.
Defined.

(** ** More on the entry set resolver *)

Section EntrySetMore.

Variable env : Env.

Lemma Set_fold_map_NoDup (g : string -> string) (xs acc : list string) :
  NoDup acc -> NoDup (fold_left (fun s entry => Set_add (g entry) s) xs acc).
Proof.
  revert acc. induction xs as [|x xs IH]; intros acc H; [exact H|].
  cbn [fold_left]. apply IH, Set_add_NoDup, H.
Qed.

Lemma eligible_conditions (layerRefName : string) (f : FunctionWithConfig) :
  eligible layerRefName (FunctionDefinitionHandler f) = true ->
  negb (match shouldLayer f with Some b => b | None => true end) = false
  /\ negb (existsb (fun layer => String.eqb (Ref layer) layerRefName)
                   (match layers f with Some l => l | None => [] end)) = false.
Proof.
  cbn [eligible]. intros H. apply andb_true_iff in H as [H1 ->].
  split; [|reflexivity].
  destruct (shouldLayer f) as [[|]|]; [reflexivity | discriminate | reflexivity].
Qed.

(** The loop body for an eligible function, with the pattern step done. *)
Lemma resolve_function_eligible (backup layerRefName : string)
  (f : FunctionWithConfig) (acc : list string) :
  eligible layerRefName (FunctionDefinitionHandler f) = true ->
  resolve_function env backup layerRefName (FunctionDefinitionHandler f) acc
  = bind ([EvGlob (rewrite_extension (handler f))],
          Resolved (matches_of env (handler f)))
      (fun matched =>
         let newEntries :=
           fold_left (fun s entry => Set_add (path_resolve env [entry]) s) matched acc in
         if (List.length matched =? 0)%nat then
           match handler_match (handler f) with
           | None => ret newEntries
           | Some (handlerName, folderName) =>
               files <- readdir_async env (fallback_dir env folderName) ;;
               joined <- path_join_checked env folderName
                           (if (1 <? List.length (prefix_matches handlerName folderName files))%nat
                            then Some (replace_first folderName EmptyString handlerName
                                       ++ "." ++ backup)%string
                            else nth_error (prefix_matches handlerName folderName files) 0) ;;
               ret (Set_add (path_resolve env [joined]) newEntries)
           end
         else ret newEntries).
Proof.
  intros H. destruct (eligible_conditions layerRefName f H) as [H1 H2].
  cbn [resolve_function]. rewrite H1, H2, findEntriesSpecified_handler. reflexivity.
Qed.

Lemma resolve_function_NoDup (backup layerRefName : string)
  (func : FunctionDefinition) (acc acc' : list string) :
  NoDup acc ->
  outcome (resolve_function env backup layerRefName func acc) = Resolved acc' ->
  NoDup acc'.
Proof.
  intros Hacc.
  destruct (eligible layerRefName func) eqn:E.
  - destruct func as [| image | f]; try discriminate.
    rewrite (resolve_function_eligible backup layerRefName f acc E), bind_resolved.
    cbn [outcome snd].
    pose proof (Set_fold_map_NoDup (fun entry => path_resolve env [entry])
                  (matches_of env (handler f)) acc Hacc) as Hfold.
    destruct (List.length (matches_of env (handler f)) =? 0)%nat;
      [|cbn; intros [= <-]; exact Hfold].
    destruct (handler_match (handler f)) as [[handlerName folderName]|];
      [|cbn; intros [= <-]; exact Hfold].
    unfold readdir_async.
    destruct (readdir env (fallback_dir env folderName)) as [e|files];
      [cbn; discriminate|].
    cbn [emit bind ret app].
    destruct (if (1 <? _)%nat then _ else _) as [name|]; [|cbn; discriminate].
    cbn. intros [= <-]. apply Set_add_NoDup, Hfold.
  - rewrite (resolve_function_ineligible env backup layerRefName func acc E).
    cbn. intros [= <-]. exact Hacc.
Qed.

(** X11.  The entries [resolvedEntries] returns hold no path twice. *)
Theorem resolvedEntries_NoDup (sls : Serverless) (layerRefName : string)
  (entries : list string) :
  outcome (resolvedEntries env sls layerRefName) = Resolved entries ->
  NoDup entries.
Proof.
  intros H.
  apply (for_of_invariant (@NoDup string) (map snd (functions (service sls)))
           (resolve_function env (backupFileType_of sls) layerRefName) [] entries);
    [ | constructor | exact H].
  intros func s s' _ Hs Hb.
  exact (resolve_function_NoDup (backupFileType_of sls) layerRefName func s s' Hs Hb).
Qed.

End EntrySetMore.

Lemma resolvedEntries_NoDup_witness :
  NoDup ["/app/examples/example-layer-service/hello.js"].
Proof.
  apply (resolvedEntries_NoDup (Sample.disk_env Sample.hello_files)
           (Sample.sls_of
              [("f1", Sample.layered "examples/example-layer-service/hello.default" "LayerA");
               ("f2", Sample.layered "examples/example-layer-service/hello.run" "LayerA")]
              None)
           "LayerA").
  reflexivity.
Defined.

Section EntrySetRuns.

Variable env : Env.

Lemma for_of_app {A S} (xs ys : list A) (body : A -> S -> Async S) (acc : S) :
  for_of (xs ++ ys) body acc = bind (for_of xs body acc) (for_of ys body).
Proof.
  revert acc. induction xs as [|x xs IH]; intros acc.
  - cbn [app for_of]. now rewrite bind_ret_l.
  - cbn [app]. rewrite !for_of_cons.
    destruct (body x acc) as [t [acc'|e]]; [|reflexivity].
    rewrite !bind_resolved, IH.
    destruct (for_of xs body acc') as [t' [s|e]].
    + rewrite !bind_resolved. cbn [trace outcome fst snd].
      rewrite bind_resolved. cbn [trace outcome fst snd]. now rewrite app_assoc.
    + reflexivity.
Qed.

(** The loop body when the pattern step finds a file: the matches are
    added and no directory is listed. *)
Lemma resolve_function_matched (backup layerRefName : string)
  (f : FunctionWithConfig) (acc : list string) :
  eligible layerRefName (FunctionDefinitionHandler f) = true ->
  glob env (rewrite_extension (handler f)) <> [] ->
  resolve_function env backup layerRefName (FunctionDefinitionHandler f) acc
  = ([EvGlob (rewrite_extension (handler f))],
     Resolved (fold_left (fun s entry => Set_add (path_resolve env [entry]) s)
                         (matches_of env (handler f)) acc)).
Proof.
  intros He Hg. rewrite (resolve_function_eligible env backup layerRefName f acc He).
  assert (Hl : (List.length (matches_of env (handler f)) =? 0)%nat = false).
  { unfold matches_of. rewrite length_map.
    destruct (glob env (rewrite_extension (handler f))); [congruence | reflexivity]. }
  rewrite bind_resolved. cbv beta zeta. rewrite Hl. reflexivity.
Qed.

Lemma for_of_all_matched (backup layerRefName : string)
  (funcs : list FunctionDefinition) (acc : list string) :
  (forall f, In (FunctionDefinitionHandler f) funcs ->
     eligible layerRefName (FunctionDefinitionHandler f) = true ->
     glob env (rewrite_extension (handler f)) <> []) ->
  exists entries,
    outcome (for_of funcs (resolve_function env backup layerRefName) acc)
    = Resolved entries
    /\ Forall (fun ev => forall dir, ev <> EvReaddir dir)
              (trace (for_of funcs (resolve_function env backup layerRefName) acc))
    /\ forall p, In p entries <-> In p acc \/ contributes env layerRefName funcs p.
Proof.
  revert acc. induction funcs as [|func funcs IH]; intros acc Hall.
  - exists acc. repeat split; [constructor | tauto |].
    intros [H | [f [[] _]]]. exact H.
  - rewrite for_of_cons.
    destruct (eligible layerRefName func) eqn:E.
    + destruct func as [| image | f]; try discriminate.
      rewrite (resolve_function_matched backup layerRefName f acc E
                 (Hall f (or_introl eq_refl) E)), bind_resolved.
      destruct (IH (fold_left (fun s entry => Set_add (path_resolve env [entry]) s)
                              (matches_of env (handler f)) acc))
        as [entries [Ho [Ht Hin]]].
      { intros f' Hf'. apply Hall. now right. }
      exists entries. cbn [outcome trace fst snd]. split; [exact Ho|]. split.
      * constructor; [discriminate | exact Ht].
      * intros p. rewrite Hin, Set_fold_map_In. split.
        -- intros [[H | H] | [f' [H1 H2]]]; auto.
           ++ right. exists f. repeat split; auto. now left.
           ++ right. exists f'. split; [now right | exact H2].
        -- intros [H | [f' [[H1 | H1] [H2 H3]]]]; auto.
           ++ injection H1 as <-. auto.
           ++ right. exists f'. auto.
    + rewrite (resolve_function_ineligible env backup layerRefName func acc E),
        bind_resolved.
      destruct (IH acc) as [entries [Ho [Ht Hin]]].
      { intros f' Hf'. apply Hall. now right. }
      exists entries. cbn [outcome trace fst snd]. split; [exact Ho|]. split.
      * apply Forall_app. split; [|exact Ht].
        destruct (isFunctionDefinition func); repeat constructor; discriminate.
      * intros p. rewrite Hin. split.
        -- intros [H | [f' [H1 H2]]]; auto.
           right. exists f'. split; [now right | exact H2].
        -- intros [H | [f' [[H1 | H1] [H2 H3]]]]; auto.
           ++ subst func. congruence.
           ++ right. exists f'. auto.
Qed.

End EntrySetRuns.

Section Fallback.

Variable env : Env.

(** X12.  When the pattern step finds a file for every eligible
    function, [resolvedEntries] does not reject and lists no directory, and
    its entries are exactly the absolute forms of those matches. *)
Theorem resolvedEntries_all_matched (sls : Serverless) (layerRefName : string) :
  (forall f, In (FunctionDefinitionHandler f) (map snd (functions (service sls))) ->
     eligible layerRefName (FunctionDefinitionHandler f) = true ->
     glob env (rewrite_extension (handler f)) <> []) ->
  exists entries,
    outcome (resolvedEntries env sls layerRefName) = Resolved entries
    /\ Forall (fun ev => forall dir, ev <> EvReaddir dir)
              (trace (resolvedEntries env sls layerRefName))
    /\ forall p, In p entries
                 <-> contributes env layerRefName (map snd (functions (service sls))) p.
Proof.
  intros H.
  destruct (for_of_all_matched env (backupFileType_of sls) layerRefName
              (map snd (functions (service sls))) [] H) as [entries [Ho [Ht Hin]]].
  exists entries. repeat split; auto.
  - intros Hp. apply Hin in Hp as [[] | Hp]. exact Hp.
  - intros Hp. apply Hin. now right.
Qed.

Lemma resolvedEntries_split (sls : Serverless) (layerRefName : string)
  (pre post : list (string * FunctionDefinition)) (kv : string * FunctionDefinition) :
  resolvedEntries env (with_functions sls (pre ++ kv :: post)) layerRefName
  = bind (resolvedEntries env (with_functions sls pre) layerRefName)
      (fun acc =>
         bind (resolve_function env (backupFileType_of sls) layerRefName (snd kv) acc)
              (for_of (map snd post)
                      (resolve_function env (backupFileType_of sls) layerRefName))).
Proof.
  unfold resolvedEntries. cbn [with_functions service functions].
  change (backupFileType_of (with_functions sls (pre ++ kv :: post)))
    with (backupFileType_of sls).
  change (backupFileType_of (with_functions sls pre)) with (backupFileType_of sls).
  rewrite map_app, for_of_app. reflexivity.
Qed.

(** The loop body when the pattern step finds nothing and the handler has
    the shape the fallback expects. *)
Lemma resolve_function_fallback (backup layerRefName : string)
  (f : FunctionWithConfig) (acc : list string) (handlerName folderName : string) :
  eligible layerRefName (FunctionDefinitionHandler f) = true ->
  glob env (rewrite_extension (handler f)) = [] ->
  handler_match (handler f) = Some (handlerName, folderName) ->
  resolve_function env backup layerRefName (FunctionDefinitionHandler f) acc
  = bind ([EvGlob (rewrite_extension (handler f)); EvReaddir (fallback_dir env folderName)],
          match readdir env (fallback_dir env folderName) with
          | inr files => Resolved files
          | inl e => Rejected e
          end)
      (fun files =>
         joined <- path_join_checked env folderName
                     (if (1 <? List.length (prefix_matches handlerName folderName files))%nat
                      then Some (replace_first folderName EmptyString handlerName
                                 ++ "." ++ backup)%string
                      else nth_error (prefix_matches handlerName folderName files) 0) ;;
         ret (Set_add (path_resolve env [joined]) acc)).
Proof.
  intros He Hg Hm.
  rewrite (resolve_function_eligible env backup layerRefName f acc He), bind_resolved.
  unfold matches_of. rewrite Hg. cbv beta zeta. cbn [map List.length Nat.eqb fold_left].
  rewrite Hm. unfold readdir_async.
  destruct (readdir env (fallback_dir env folderName)) as [e|files]; [reflexivity|].
  cbn [emit bind ret app trace outcome fst snd].
  destruct (path_join_checked env folderName _) as [t [j|e]]; reflexivity.
Qed.

(** X13.  When the fallback cannot list the handler's directory, the
    file-system error ends the whole resolution: the functions declared
    after it are not looked at, and the entries found before are lost. *)
Theorem resolvedEntries_fallback_unlistable
  (sls : Serverless) (layerRefName : string)
  (pre post : list (string * FunctionDefinition)) (k : string) (f : FunctionWithConfig)
  (t : list Event) (acc : list string) (handlerName folderName : string) (e : JsError) :
  resolvedEntries env (with_functions sls pre) layerRefName = (t, Resolved acc) ->
  eligible layerRefName (FunctionDefinitionHandler f) = true ->
  glob env (rewrite_extension (handler f)) = [] ->
  handler_match (handler f) = Some (handlerName, folderName) ->
  readdir env (fallback_dir env folderName) = inl e ->
  resolvedEntries env
    (with_functions sls (pre ++ (k, FunctionDefinitionHandler f) :: post)) layerRefName
  = (t ++ [EvGlob (rewrite_extension (handler f)); EvReaddir (fallback_dir env folderName)],
     Rejected e).
Proof.
  intros Hpre He Hg Hm Hr.
  rewrite resolvedEntries_split, Hpre, bind_resolved. cbn [snd].
  rewrite (resolve_function_fallback (backupFileType_of sls) layerRefName f acc
             handlerName folderName He Hg Hm), Hr.
  reflexivity.
Qed.

(** X14.  When the handler's directory holds no entry that starts with
    its file name, joining the undefined first match to the folder throws: the
    resolution rejects with a type error and the later functions are not
    looked at. *)
Theorem resolvedEntries_fallback_no_prefix
  (sls : Serverless) (layerRefName : string)
  (pre post : list (string * FunctionDefinition)) (k : string) (f : FunctionWithConfig)
  (t : list Event) (acc : list string) (handlerName folderName : string)
  (files : list string) :
  resolvedEntries env (with_functions sls pre) layerRefName = (t, Resolved acc) ->
  eligible layerRefName (FunctionDefinitionHandler f) = true ->
  glob env (rewrite_extension (handler f)) = [] ->
  handler_match (handler f) = Some (handlerName, folderName) ->
  readdir env (fallback_dir env folderName) = inr files ->
  prefix_matches handlerName folderName files = [] ->
  resolvedEntries env
    (with_functions sls (pre ++ (k, FunctionDefinitionHandler f) :: post)) layerRefName
  = (t ++ [EvGlob (rewrite_extension (handler f)); EvReaddir (fallback_dir env folderName)],
     Rejected (TypeError "The path argument must be of type string. Received undefined")).
Proof.
  intros Hpre He Hg Hm Hr Hp.
  rewrite resolvedEntries_split, Hpre, bind_resolved. cbn [snd].
  rewrite (resolve_function_fallback (backupFileType_of sls) layerRefName f acc
             handlerName folderName He Hg Hm), Hr, bind_resolved, Hp.
  reflexivity.
Qed.

(** X15.  When the handler's directory holds entries that start with its
    file name, the fallback adds one path: the single such entry, or, when
    there are several, the file name followed by the backup qualifier. *)
Theorem resolvedEntries_fallback_found
  (sls : Serverless) (layerRefName : string)
  (pre : list (string * FunctionDefinition)) (k : string) (f : FunctionWithConfig)
  (t : list Event) (acc : list string) (handlerName folderName : string)
  (files : list string) (file : string) (more : list string) :
  resolvedEntries env (with_functions sls pre) layerRefName = (t, Resolved acc) ->
  eligible layerRefName (FunctionDefinitionHandler f) = true ->
  glob env (rewrite_extension (handler f)) = [] ->
  handler_match (handler f) = Some (handlerName, folderName) ->
  readdir env (fallback_dir env folderName) = inr files ->
  prefix_matches handlerName folderName files = file :: more ->
  resolvedEntries env
    (with_functions sls (pre ++ [(k, FunctionDefinitionHandler f)])) layerRefName
  = (t ++ [EvGlob (rewrite_extension (handler f)); EvReaddir (fallback_dir env folderName)],
     Resolved
       (Set_add
          (path_resolve env
             [path_join env
                [folderName;
                 match more with
                 | [] => file
                 | _ :: _ => (replace_first folderName EmptyString handlerName
                              ++ "." ++ backupFileType_of sls)%string
                 end]])
          acc)).
Proof.
  intros Hpre He Hg Hm Hr Hp.
  rewrite resolvedEntries_split, Hpre, bind_resolved. cbn [snd].
  rewrite (resolve_function_fallback (backupFileType_of sls) layerRefName f acc
             handlerName folderName He Hg Hm), Hr, bind_resolved, Hp.
  destruct more as [|file2 more]; cbn; rewrite ?app_nil_r; reflexivity.
Qed.

End Fallback.

Lemma resolvedEntries_all_matched_witness :
  exists entries,
    outcome (resolvedEntries (Sample.disk_env Sample.hello_files) Sample.hello_sls "LayerA")
    = Resolved entries
    /\ Forall (fun ev => forall dir, ev <> EvReaddir dir)
              (trace (resolvedEntries (Sample.disk_env Sample.hello_files)
                        Sample.hello_sls "LayerA"))
    /\ forall p, In p entries
                 <-> contributes (Sample.disk_env Sample.hello_files) "LayerA"
                       (map snd (functions (service Sample.hello_sls))) p.
Proof.
  apply (resolvedEntries_all_matched (Sample.disk_env Sample.hello_files)
           Sample.hello_sls "LayerA").
  intros f [H|[]] _. injection H as <-. vm_compute. discriminate.
Defined.

Lemma resolvedEntries_fallback_unlistable_witness :
  resolvedEntries (Sample.disk_env [])
    (with_functions Sample.ambiguous_sls
       ([] ++ ("f1", Sample.layered "src/hello.handler" "LayerA")
           :: [("f2", Sample.layered "lib/other.handler" "LayerA")]))
    "LayerA"
  = ([] ++ [EvGlob "src/hello.@(ts|js)?(x)"; EvReaddir "/app/src"],
     Rejected (SystemError "ENOENT")).
Proof.
  apply (resolvedEntries_fallback_unlistable (Sample.disk_env []) Sample.ambiguous_sls
           "LayerA" [] [("f2", Sample.layered "lib/other.handler" "LayerA")] "f1"
           {| handler := "src/hello.handler";
              layers := Some [mkLayerRef "LayerA"];
              shouldLayer := None |}
           [] [] "src/hello" "src/" (SystemError "ENOENT"));
    reflexivity.
Defined.

Lemma resolvedEntries_fallback_no_prefix_witness :
  resolvedEntries (Sample.disk_env Sample.missing_files)
    (with_functions Sample.missing_sls
       ([] ++ ("f1", Sample.layered "src/missing.handler" "LayerA")
           :: [("f2", Sample.layered "src/other.handler" "LayerA")]))
    "LayerA"
  = ([] ++ [EvGlob "src/missing.@(ts|js)?(x)"; EvReaddir "/app/src"],
     Rejected (TypeError "The path argument must be of type string. Received undefined")).
Proof.
  apply (resolvedEntries_fallback_no_prefix (Sample.disk_env Sample.missing_files)
           Sample.missing_sls "LayerA" []
           [("f2", Sample.layered "src/other.handler" "LayerA")] "f1"
           {| handler := "src/missing.handler";
              layers := Some [mkLayerRef "LayerA"];
              shouldLayer := None |}
           [] [] "src/missing" "src/" ["other.js"]);
    reflexivity.
Defined.

Lemma resolvedEntries_fallback_found_witness :
  resolvedEntries (Sample.disk_env ["/app/src/hello.mjs"; "/app/src/other.js"])
    (with_functions Sample.ambiguous_sls
       ([("f0", Sample.layered "src/other.handler" "LayerA")]
        ++ [("f1", Sample.layered "src/hello.handler" "LayerA")]))
    "LayerA"
  = ([EvGlob "src/other.@(ts|js)?(x)"]
     ++ [EvGlob "src/hello.@(ts|js)?(x)"; EvReaddir "/app/src"],
     Resolved (Set_add "/app/src/hello.mjs" ["/app/src/other.js"])).
Proof.
  apply (resolvedEntries_fallback_found
           (Sample.disk_env ["/app/src/hello.mjs"; "/app/src/other.js"])
           Sample.ambiguous_sls "LayerA"
           [("f0", Sample.layered "src/other.handler" "LayerA")] "f1"
           {| handler := "src/hello.handler";
              layers := Some [mkLayerRef "LayerA"];
              shouldLayer := None |}
           [EvGlob "src/other.@(ts|js)?(x)"] ["/app/src/other.js"]
           "src/hello" "src/" ["hello.mjs"; "other.js"] "hello.mjs" []);
    reflexivity.
Defined.

(** X16.  When no declared function is eligible for the layer, the
    resolution returns no entry and touches no file; all it does is print
    the diagnostic once for each definition that has no handler, in the
    order of declaration. *)
Theorem resolvedEntries_none_eligible (env : Env) (sls : Serverless)
  (layerRefName : string) :
  forallb (fun func => negb (eligible layerRefName func))
          (map snd (functions (service sls))) = true ->
  resolvedEntries env sls layerRefName
  = (map (fun _ => EvConsoleError image_diagnostic)
         (filter (fun func => negb (isFunctionDefinition func))
                 (map snd (functions (service sls)))),
     Resolved []).
Proof.
  unfold resolvedEntries.
  generalize (backupFileType_of sls) as backup.
  induction (map snd (functions (service sls))) as [|func funcs IH];
    intros backup H; [reflexivity|].
  cbn [forallb] in H. apply andb_true_iff in H as [H1 H2].
  apply negb_true_iff in H1.
  rewrite for_of_cons, (resolve_function_ineligible env backup layerRefName func [] H1).
  rewrite bind_resolved, (IH backup H2). cbn [trace outcome fst snd filter].
  destruct (isFunctionDefinition func); reflexivity.
Qed.

Lemma resolvedEntries_none_eligible_witness :
  resolvedEntries (Sample.disk_env Sample.hello_files)
    (Sample.sls_of
       [("img", FunctionDefinitionImage "repo/image:latest");
        ("f1", Sample.layered "examples/example-layer-service/hello.default" "LayerA");
        ("nothing", FunctionNullish)]
       None)
    "LayerB"
  = ([EvConsoleError image_diagnostic; EvConsoleError image_diagnostic], Resolved []).
Proof.
  apply (resolvedEntries_none_eligible (Sample.disk_env Sample.hello_files)
           (Sample.sls_of
              [("img", FunctionDefinitionImage "repo/image:latest");
               ("f1", Sample.layered "examples/example-layer-service/hello.default" "LayerA");
               ("nothing", FunctionNullish)]
              None)
           "LayerB").
  reflexivity.
Defined.

(** ** More on the dependency filter *)

(** X17.  A name is in the output of the filter stage exactly when it is
    forced in, or it is the normal form of a collected specifier that is not
    built in and the name is neither always available nor forced out. *)
Theorem filterStage_In (env : Env) (config : Config) (raw : list string) (dep : string) :
  In dep (filterStage env config raw)
  <-> In dep (forceInclude config)
      \/ ((exists module, In module raw /\ isBuiltinModule env module = false
                          /\ fixModuleName module = dep)
          /\ ~ In dep (DEFAULT_AWS_MODULES env)
          /\ ~ In dep (forceExclude config)).
Proof.
  rewrite filterStage_split, in_app_iff, kept_In. tauto.
Qed.

Lemma Set_add_present (x : string) (s : list string) : In x s -> Set_add x s = s.
Proof.
  unfold Set_add. induction s as [|y s IH]; [intros []|].
  intros H. cbn [set_add]. destruct (string_dec x y) as [_|Hne]; [reflexivity|].
  destruct H as [H|H]; [congruence|]. now rewrite (IH H).
Qed.

Lemma Set_of_snoc (xs : list string) (x : string) :
  Set_of (xs ++ [x]) = Set_add x (Set_of xs).
Proof. unfold Set_of. now rewrite fold_left_app. Qed.

(** X18.  A further specifier changes nothing in the output of the
    filter stage when it is built in, or when a specifier collected before
    it, not built in, has the same normal form. *)
Theorem filterStage_redundant_specifier
  (env : Env) (config : Config) (raw : list string) (module : string) :
  isBuiltinModule env module = true
  \/ (exists earlier, In earlier raw /\ isBuiltinModule env earlier = false
                      /\ fixModuleName earlier = fixModuleName module) ->
  filterStage env config (raw ++ [module]) = filterStage env config raw.
Proof.
  intros H. unfold filterStage. f_equal. f_equal.
  rewrite filter_app. cbn [filter].
  destruct (isBuiltinModule env module) eqn:Hb; cbn [negb].
  - now rewrite app_nil_r.
  - destruct H as [H | [earlier [Hin [Hbe Hn]]]]; [discriminate|].
    rewrite map_app. cbn [map]. rewrite Set_of_snoc.
    apply Set_add_present, Set_of_In, in_map_iff.
    exists earlier. split; [exact Hn|]. apply filter_In. now rewrite Hbe.
Qed.

Lemma filterStage_redundant_specifier_witness :
  filterStage (Sample.disk_env []) Sample.config0 (["uuid/v4"; "got"] ++ ["uuid/v5"])
  = filterStage (Sample.disk_env []) Sample.config0 ["uuid/v4"; "got"].
Proof.
  apply filterStage_redundant_specifier. right. exists "uuid/v4".
  repeat split. now left.
Defined.

Lemma filter_notEmpty_In {A} (a : A) (xs : list (option A)) :
  In a (filter_notEmpty xs) <-> In (Some a) xs.
Proof.
  induction xs as [|[x|] xs IH]; cbn [filter_notEmpty In]; [tauto | |].
  - rewrite IH. split; intros [H|H]; auto; left; congruence.
  - rewrite IH. split; [auto | intros [H|H]; [discriminate | exact H]].
Qed.

(** X19.  The specifiers read off the build graph are the import paths
    of every output and, for every input that is not itself under
    [node_modules], the original specifier of every import that resolves
    under [node_modules]; imports without an original specifier, imports of
    local files, and imports made by files under [node_modules] give
    nothing. *)
Theorem rawSpecifiers_In (result : Metafile) (specifier : string) :
  In specifier (rawSpecifiers result)
  <-> (exists output import, In output (outputs result) /\ In import (snd output)
                             /\ path import = specifier)
      \/ (exists input import, In input (inputs result)
                               /\ startsWith (fst input) "node_modules" = false
                               /\ In import (snd input)
                               /\ startsWith (path import) "node_modules" = true
                               /\ original import = Some specifier).
Proof.
  unfold rawSpecifiers. rewrite fold_left_app_concat. cbn [app].
  rewrite in_concat. split.
  - intros [l [Hl Hs]]. apply in_app_iff in Hl as [Hl | Hl].
    + left. unfold importedModules in Hl. apply in_map_iff in Hl as [o [<- Ho]].
      apply in_map_iff in Hs as [i [Hi Hin]]. exists o, i. auto.
    + right. unfold requiredModules in Hl. apply in_map_iff in Hl as [kv [<- Hkv]].
      apply filter_In in Hkv as [Hkv Hk]. apply negb_true_iff in Hk.
      apply filter_notEmpty_In, in_map_iff in Hs as [i [Hi Hin]].
      apply filter_In in Hin as [Hin Hp]. exists kv, i. auto.
  - intros [[o [i [Ho [Hi Hp]]]] | [kv [i [Hkv [Hk [Hi [Hp Ho]]]]]]].
    + exists (map path (snd o)). split.
      * apply in_app_iff. left. unfold importedModules. apply in_map_iff. now exists o.
      * apply in_map_iff. now exists i.
    + exists (filter_notEmpty
                (map original
                     (filter (fun i => startsWith (path i) "node_modules") (snd kv)))).
      split.
      * apply in_app_iff. right. unfold requiredModules. apply in_map_iff.
        exists kv. split; [reflexivity|]. apply filter_In. now rewrite Hk.
      * apply filter_notEmpty_In, in_map_iff. exists i. split; [exact Ho|].
        apply filter_In. auto.
Qed.

(** ** More on the dependency graph extractor *)

Section ExtractorMore.

Variable env : Env.

(** X20.  A rejection of the entry resolution is the rejection of
    [getExternalModules]: nothing more happens, no plugin file is imported
    and the bundler is not called. *)
Theorem getExternalModules_resolution_rejected
  (sls : Serverless) (config : Config) (layerRefName : string) (e : JsError) :
  outcome (resolvedEntries env sls layerRefName) = Rejected e ->
  getExternalModules env sls config layerRefName
  = (trace (resolvedEntries env sls layerRefName), Rejected e).
Proof.
  intros H. unfold getExternalModules.
  destruct (resolvedEntries env sls layerRefName) as [t o].
  cbn [outcome snd] in H. subst o. reflexivity.
Qed.

(** X21.  When the plugin file loads and exports an array, the bundler
    is called once, with the externals plugin first and then the exported
    plugins except those named [node-externals], in their order; nothing is
    logged. *)
Theorem getExternalModules_plugins_loaded
  (sls : Serverless) (config : Config) (layerRefName pluginFile : string)
  (exported : list Plugin) (t : list Event) (entries : list string) :
  truthy (custom_plugins (esbuildConfig_of sls)) = Some pluginFile ->
  import_default env (path_resolve env [process_cwd env; pluginFile])
  = inr (Some exported) ->
  resolvedEntries env sls layerRefName = (t, Resolved entries) ->
  entries <> [] ->
  let modules := filter (fun m => negb (String.eqb (name m) "node-externals")) exported in
  getExternalModules env sls config layerRefName
  = (t ++ [EvImport (path_resolve env [process_cwd env; pluginFile]);
           EvBuild (build_options env sls entries modules)],
     match esbuild_build env (build_options env sls entries modules) with
     | inr result => Resolved (filterStage env config (rawSpecifiers result))
     | inl e => Rejected e
     end)
  /\ plugins (build_options env sls entries modules) = nodeExternalsPlugin env :: modules
  /\ Forall (fun m => name m <> "node-externals") modules.
Proof.
  intros Hp Hi Hr Hne modules. split; [|split].
  - unfold getExternalModules. rewrite Hr, Hp, bind_resolved.
    destruct entries as [|x xs]; [congruence|]. cbn [List.length Nat.eqb].
    unfold load_plugins, esbuild_build_async. rewrite Hi.
    cbn -[build_options filterStage rawSpecifiers].
    fold modules.
    destruct (esbuild_build env (build_options env sls (x :: xs) modules));
      reflexivity.
  - reflexivity.
  - apply Forall_forall. intros m Hm. apply filter_In in Hm as [_ Hm].
    apply negb_true_iff, String.eqb_neq in Hm. exact Hm.
Qed.

(** X22.  A failure of the bundler is the failure of the extraction: with
    entries resolved and no plugin file configured, the error the bundler
    gives is the rejection of [getExternalModules]. *)
Theorem getExternalModules_build_failure
  (sls : Serverless) (config : Config) (layerRefName : string)
  (t : list Event) (entries : list string) (e : JsError) :
  truthy (custom_plugins (esbuildConfig_of sls)) = None ->
  resolvedEntries env sls layerRefName = (t, Resolved entries) ->
  entries <> [] ->
  esbuild_build env (build_options env sls entries []) = inl e ->
  getExternalModules env sls config layerRefName
  = (t ++ [EvBuild (build_options env sls entries [])], Rejected e).
Proof.
  intros Hp Hr Hne Hb.
  rewrite (getExternalModules_no_plugin_file env sls config layerRefName t entries
             Hp Hr Hne).
  unfold extraction_outcome. now rewrite Hb.
Qed.

(** X23.  Whatever [getExternalModules] returns is either the empty
    sequence of the early return, where [forceInclude] is not added, or an
    output of the filter stage on the graph of a bundler call, which ends
    with [forceInclude]. *)
Theorem getExternalModules_result
  (sls : Serverless) (config : Config) (layerRefName : string) (mods : list string) :
  outcome (getExternalModules env sls config layerRefName) = Resolved mods ->
  (outcome (resolvedEntries env sls layerRefName) = Resolved [] /\ mods = [])
  \/ (exists entries modules result,
        outcome (resolvedEntries env sls layerRefName) = Resolved entries
        /\ entries <> []
        /\ esbuild_build env (build_options env sls entries modules) = inr result
        /\ mods = filterStage env config (rawSpecifiers result)
        /\ mods = kept env config (rawSpecifiers result) ++ forceInclude config).
Proof.
  unfold getExternalModules.
  destruct (resolvedEntries env sls layerRefName) as [t [entries|e]];
    [|cbn; discriminate].
  rewrite bind_resolved. cbn [outcome snd].
  destruct entries as [|x xs]; [cbn; intros [= <-]; left; split; reflexivity|].
  cbn [List.length Nat.eqb]. intros H. right.
  destruct (match truthy (custom_plugins (esbuildConfig_of sls)) with
            | Some pluginFile => load_plugins env pluginFile
            | None => ret (Some [])
            end) as [t1 [[modules|]|e]]; try (cbn in H; discriminate).
  rewrite bind_resolved in H. cbn [outcome snd] in H.
  unfold esbuild_build_async in H.
  destruct (esbuild_build env (build_options env sls (x :: xs) modules))
    as [e|result] eqn:Eb; [cbn in H; discriminate|].
  cbn in H. injection H as <-.
  exists (x :: xs), modules, result. repeat split; auto. discriminate.
Qed.

End ExtractorMore.

Lemma getExternalModules_resolution_rejected_witness :
  getExternalModules (Sample.disk_env Sample.missing_files) Sample.missing_sls
    Sample.config_both "LayerA"
  = ([EvGlob "src/missing.@(ts|js)?(x)"; EvReaddir "/app/src"],
     Rejected (TypeError "The path argument must be of type string. Received undefined")).
Proof.
  apply (getExternalModules_resolution_rejected (Sample.disk_env Sample.missing_files)
           Sample.missing_sls Sample.config_both "LayerA").
  reflexivity.
Defined.

Lemma getExternalModules_result_witness :
  (outcome (resolvedEntries (Sample.disk_env Sample.hello_files) Sample.hello_sls "LayerA")
   = Resolved [] /\ ["aws-sdk"; "uuid"] = [])
  \/ (exists entries modules result,
        outcome (resolvedEntries (Sample.disk_env Sample.hello_files)
                   Sample.hello_sls "LayerA") = Resolved entries
        /\ entries <> []
        /\ esbuild_build (Sample.disk_env Sample.hello_files)
             (build_options (Sample.disk_env Sample.hello_files) Sample.hello_sls
                entries modules) = inr result
        /\ ["aws-sdk"; "uuid"]
           = filterStage (Sample.disk_env Sample.hello_files) Sample.config_both
               (rawSpecifiers result)
        /\ ["aws-sdk"; "uuid"]
           = kept (Sample.disk_env Sample.hello_files) Sample.config_both
               (rawSpecifiers result)
             ++ forceInclude Sample.config_both).
Proof.
  apply (getExternalModules_result (Sample.disk_env Sample.hello_files)
           Sample.hello_sls Sample.config_both "LayerA").
  reflexivity.
Defined.

Lemma getExternalModules_plugins_loaded_witness :
  let env := with_collaborators (Sample.disk_env Sample.hello_files)
               (fun _ => inr (Some [mkPlugin "copy" 1; mkPlugin "node-externals" 2;
                                    mkPlugin "alias" 3]))
               (fun _ => inr Sample.graph) in
  trace (getExternalModules env Sample.hello_sls Sample.config0 "LayerA")
  = [EvGlob "examples/example-layer-service/hello.@(ts|js)?(x)";
     EvImport "/app/plugins.js";
     EvBuild (build_options env Sample.hello_sls
                ["/app/examples/example-layer-service/hello.js"]
                [mkPlugin "copy" 1; mkPlugin "alias" 3])]
  /\ outcome (getExternalModules env Sample.hello_sls Sample.config0 "LayerA")
     = Resolved ["uuid"].
Proof.
  intros env.
  assert (Hne : ["/app/examples/example-layer-service/hello.js"] <> @nil string)
    by discriminate.
  destruct (getExternalModules_plugins_loaded env Sample.hello_sls Sample.config0
              "LayerA" "plugins.js"
              [mkPlugin "copy" 1; mkPlugin "node-externals" 2; mkPlugin "alias" 3]
              [EvGlob "examples/example-layer-service/hello.@(ts|js)?(x)"]
              ["/app/examples/example-layer-service/hello.js"]
              eq_refl eq_refl eq_refl Hne) as [H _].
  rewrite H. split; reflexivity.
Defined.

Lemma getExternalModules_build_failure_witness :
  let env := with_collaborators (Sample.disk_env Sample.hello_files)
               (fun _ => inl (ImportError "Cannot find module"))
               (fun _ => inl (BuildFailure "Build failed with 1 error")) in
  let sls := Sample.sls_of
               [("f1", Sample.layered "examples/example-layer-service/hello.default"
                         "LayerA")] None in
  getExternalModules env sls Sample.config_both "LayerA"
  = ([EvGlob "examples/example-layer-service/hello.@(ts|js)?(x)"]
     ++ [EvBuild (build_options env sls
                    ["/app/examples/example-layer-service/hello.js"] [])],
     Rejected (BuildFailure "Build failed with 1 error")).
Proof.
  intros env sls.
  apply (getExternalModules_build_failure env sls Sample.config_both "LayerA"
           [EvGlob "examples/example-layer-service/hello.@(ts|js)?(x)"]
           ["/app/examples/example-layer-service/hello.js"]
           (BuildFailure "Build failed with 1 error"));
    try reflexivity.
  discriminate.
Defined.

(** ** The configuration merger *)

Section Merge.

Context {V : Type}.

Lemma Obj_get_set (k k' : string) (v : V) (o : Obj.t V) :
  Obj.get k (Obj.set k' v o) = if String.eqb k' k then Some v else Obj.get k o.
Proof.
  induction o as [|[k0 v0] o IH]; cbn [Obj.set Obj.get].
  - reflexivity.
  - destruct (String.eqb k0 k') eqn:E0; cbn [Obj.get].
    + apply String.eqb_eq in E0. subst k0. destruct (String.eqb k' k); reflexivity.
    + destruct (String.eqb k0 k) eqn:E1; [|exact IH].
      apply String.eqb_eq in E1. subst k0.
      rewrite String.eqb_sym in E0. now rewrite E0.
Qed.

Lemma Obj_get_absent (k : string) (o : Obj.t V) :
  ~ In k (Obj.keys o) -> Obj.get k o = None.
Proof.
  induction o as [|[k0 v0] o IH]; [reflexivity|].
  cbn [Obj.keys map fst In Obj.get]. intros H.
  destruct (String.eqb k0 k) eqn:E; [apply String.eqb_eq in E; tauto|].
  apply IH. intros Hin. apply H. now right.
Qed.

Lemma Obj_get_spread (k : string) (target source : Obj.t V) :
  Obj.well_formed source ->
  Obj.get k (Obj.spread target source)
  = match Obj.get k source with
    | Some v => Some v
    | None => Obj.get k target
    end.
Proof.
  unfold Obj.well_formed, Obj.spread. revert target.
  induction source as [|[k1 v1] source IH]; intros target Hnd; [reflexivity|].
  cbn [Obj.keys map fst] in Hnd. inversion Hnd as [|? ? Hnotin Hnd']; subst.
  cbn [fold_left fst snd Obj.get]. rewrite (IH _ Hnd'), Obj_get_set.
  destruct (String.eqb k1 k) eqn:E; [|reflexivity].
  apply String.eqb_eq in E. subst k1. now rewrite (Obj_get_absent k source Hnotin).
Qed.

Lemma Obj_keys_set (k : string) (v : V) (o : Obj.t V) :
  Obj.keys (Obj.set k v o) = Set_add k (Obj.keys o).
Proof.
  unfold Set_add. induction o as [|[k0 v0] o IH]; [reflexivity|].
  cbn [Obj.set Obj.keys map fst set_add].
  destruct (String.eqb k0 k) eqn:E.
  - apply String.eqb_eq in E. subst k0.
    destruct (string_dec k k); [reflexivity | congruence].
  - apply String.eqb_neq in E.
    destruct (string_dec k k0); [congruence|].
    cbn [map fst]. f_equal. exact IH.
Qed.

Lemma Obj_keys_spread (target source : Obj.t V) :
  Obj.keys (Obj.spread target source)
  = fold_left (fun s x => Set_add x s) (Obj.keys source) (Obj.keys target).
Proof.
  unfold Obj.spread. revert target.
  induction source as [|[k v] source IH]; intros target; [reflexivity|].
  change (Obj.keys ((k, v) :: source)) with (k :: Obj.keys source).
  cbn [fold_left fst snd]. rewrite IH, Obj_keys_set. reflexivity.
Qed.

Lemma Set_add_absent (x : string) (s : list string) :
  ~ In x s -> Set_add x s = s ++ [x].
Proof.
  unfold Set_add. induction s as [|y s IH]; [reflexivity|].
  intros H. cbn [set_add app].
  destruct (string_dec x y) as [->|_]; [exfalso; apply H; now left|].
  rewrite IH; [reflexivity|]. intros Hin. apply H. now right.
Qed.

Lemma Set_fold_new (xs acc : list string) :
  NoDup xs ->
  fold_left (fun s x => Set_add x s) xs acc
  = acc ++ filter (fun x => negb (string_in x acc)) xs.
Proof.
  revert acc. induction xs as [|x xs IH]; intros acc Hnd.
  - cbn. now rewrite app_nil_r.
  - inversion Hnd as [|? ? Hx Hnd']; subst. cbn [fold_left filter].
    rewrite (IH _ Hnd').
    destruct (string_in x acc) eqn:E; cbn [negb].
    + apply string_in_In in E. rewrite (Set_add_present x acc E). reflexivity.
    + apply string_in_not_In in E. rewrite (Set_add_absent x acc E).
      rewrite <- app_assoc. cbn [app]. f_equal. f_equal.
      apply filter_ext_in. intros y Hy. f_equal.
      destruct (string_in y (acc ++ [x])) eqn:E1.
      * apply string_in_In, in_app_iff in E1 as [E1 | [-> | []]].
        -- symmetry. now apply string_in_In.
        -- contradiction.
      * apply string_in_not_In in E1. symmetry. apply string_in_not_In.
        intros Hin. apply E1, in_app_iff. now left.
Qed.

(** X24.  In the merged configuration a field the user gives has the
    user's value and every other field has its default; merging the result
    over the defaults once more changes no field. *)
Theorem compileConfig_get (DEFAULT_CONFIG userConfig : Obj.t V) (k : string) :
  Obj.well_formed DEFAULT_CONFIG ->
  Obj.well_formed userConfig ->
  Obj.get k (compileConfig DEFAULT_CONFIG userConfig)
  = match Obj.get k userConfig with
    | Some v => Some v
    | None => Obj.get k DEFAULT_CONFIG
    end
  /\ Obj.get k (compileConfig DEFAULT_CONFIG (compileConfig DEFAULT_CONFIG userConfig))
     = Obj.get k (compileConfig DEFAULT_CONFIG userConfig).
Proof.
  intros Hd Hu.
  assert (Hget : forall u, Obj.well_formed u ->
            Obj.get k (compileConfig DEFAULT_CONFIG u)
            = match Obj.get k u with
              | Some v => Some v
              | None => Obj.get k DEFAULT_CONFIG
              end).
  { intros u Hwf. unfold compileConfig.
    rewrite (Obj_get_spread k _ u Hwf), (Obj_get_spread k [] DEFAULT_CONFIG Hd).
    cbn [Obj.get]. destruct (Obj.get k DEFAULT_CONFIG); reflexivity. }
  split; [exact (Hget userConfig Hu)|].
  assert (Hwf : Obj.well_formed (compileConfig DEFAULT_CONFIG userConfig)).
  { unfold Obj.well_formed, compileConfig. rewrite !Obj_keys_spread.
    apply Set_fold_NoDup, Set_fold_NoDup. constructor. }
  rewrite (Hget _ Hwf), (Hget userConfig Hu).
  destruct (Obj.get k userConfig); [reflexivity|].
  destruct (Obj.get k DEFAULT_CONFIG); reflexivity.
Qed.

(** X25.  When every key is a name (no key is a run of digits), the
    merged configuration has every default field, in the order of the
    defaults, followed by the fields only the user gives, in the user's
    order; no field occurs twice. *)
Theorem compileConfig_keys (DEFAULT_CONFIG userConfig : Obj.t V) :
  forallb is_name_key (Obj.keys DEFAULT_CONFIG) = true ->
  forallb is_name_key (Obj.keys userConfig) = true ->
  Obj.well_formed DEFAULT_CONFIG ->
  Obj.well_formed userConfig ->
  Obj.keys (compileConfig DEFAULT_CONFIG userConfig)
  = Obj.keys DEFAULT_CONFIG
    ++ filter (fun k => negb (string_in k (Obj.keys DEFAULT_CONFIG)))
              (Obj.keys userConfig)
  /\ Obj.well_formed (compileConfig DEFAULT_CONFIG userConfig).
Proof.
  intros _ _ Hd Hu. split.
  - unfold compileConfig. rewrite !Obj_keys_spread.
    rewrite (Set_fold_new (Obj.keys DEFAULT_CONFIG) _ Hd). cbn [Obj.keys map app].
    rewrite (Set_fold_new (Obj.keys userConfig) _ Hu). f_equal.
    + apply forallb_filter_id, forallb_forall. reflexivity.
    + apply filter_ext. intros k. f_equal. f_equal.
      apply forallb_filter_id, forallb_forall. reflexivity.
  - unfold Obj.well_formed, compileConfig. rewrite !Obj_keys_spread.
    apply Set_fold_NoDup, Set_fold_NoDup. constructor.
Qed.

End Merge.

Lemma compileConfig_get_witness :
  Obj.get "forceExclude"
    (compileConfig [("forceInclude", @nil string); ("forceExclude", [])]
                   [("forceExclude", ["aws-sdk"])])
  = match Obj.get "forceExclude" [("forceExclude", ["aws-sdk"])] with
    | Some v => Some v
    | None => Obj.get "forceExclude" [("forceInclude", @nil string); ("forceExclude", [])]
    end.
Proof.
  apply (compileConfig_get [("forceInclude", @nil string); ("forceExclude", [])]
           [("forceExclude", ["aws-sdk"])] "forceExclude").
  - repeat constructor; cbn; intuition discriminate.
  - repeat constructor; cbn; intuition discriminate.
Defined.

Lemma compileConfig_keys_witness :
  Obj.keys (compileConfig [("forceInclude", @nil string); ("forceExclude", [])]
                          [("level", ["debug"]); ("forceExclude", ["aws-sdk"])])
  = ["forceInclude"; "forceExclude"; "level"].
Proof.
  apply (compileConfig_keys [("forceInclude", @nil string); ("forceExclude", [])]
           [("level", ["debug"]); ("forceExclude", ["aws-sdk"])]).
  - reflexivity.
  - reflexivity.
  - repeat constructor; cbn; intuition discriminate.
  - repeat constructor; cbn; intuition discriminate.
Defined.

(** ** The sequence [getExternalModules] returns *)

Section Returned.

Variable env : Env.

(** A run that resolves some entries and returns has called the bundler
    and returns what the filter stage makes of its graph. *)
Lemma getExternalModules_filter_stage
  (sls : Serverless) (config : Config) (layerRefName : string)
  (entries mods : list string) :
  outcome (resolvedEntries env sls layerRefName) = Resolved entries ->
  entries <> [] ->
  outcome (getExternalModules env sls config layerRefName) = Resolved mods ->
  exists modules result,
    esbuild_build env (build_options env sls entries modules) = inr result
    /\ mods = filterStage env config (rawSpecifiers result).
Proof.
  unfold getExternalModules.
  destruct (resolvedEntries env sls layerRefName) as [t o].
  cbn [outcome snd]. intros -> Hne. rewrite bind_resolved. cbn [outcome snd].
  destruct entries as [|x xs]; [congruence|]. cbn [List.length Nat.eqb]. intros H.
  destruct (match truthy (custom_plugins (esbuildConfig_of sls)) with
            | Some pluginFile => load_plugins env pluginFile
            | None => ret (Some [])
            end) as [t1 [[modules|]|e]]; try (cbn in H; discriminate).
  rewrite bind_resolved in H. cbn [outcome snd] in H.
  unfold esbuild_build_async in H.
  destruct (esbuild_build env (build_options env sls (x :: xs) modules))
    as [e|result] eqn:Eb; [cbn in H; discriminate|].
  cbn in H. injection H as <-. exists modules, result. split; [exact Eb | reflexivity].
Qed.

(** A run that returns either took the early return or went through the
    filter stage. *)
Lemma getExternalModules_returned
  (sls : Serverless) (config : Config) (layerRefName : string) (mods : list string) :
  outcome (getExternalModules env sls config layerRefName) = Resolved mods ->
  mods = [] \/ exists result, mods = filterStage env config (rawSpecifiers result).
Proof.
  intros H.
  destruct (resolvedEntries env sls layerRefName) as [t [entries|e]] eqn:Er.
  - destruct entries as [|x xs].
    + left. unfold getExternalModules in H. rewrite Er in H. cbn in H. congruence.
    + right.
      destruct (getExternalModules_filter_stage sls config layerRefName (x :: xs) mods)
        as [modules [result [_ Hm]]]; [now rewrite Er | discriminate | exact H |].
      now exists result.
  - unfold getExternalModules in H. rewrite Er in H. cbn in H. discriminate.
Qed.

(** C1.  In a run of [getExternalModules] that reaches the filter stage
    (some entry is resolved and the bundler answers), the returned sequence
    is the names kept after all removals followed by the entries of
    [forceInclude] in their declared order; so a name listed in both
    [forceInclude] and [forceExclude] is in the returned sequence, though it
    is not among the kept names. *)
Theorem getExternalModules_inclusion_wins
  (sls : Serverless) (config : Config) (layerRefName : string)
  (entries mods : list string) (dep : string) :
  outcome (resolvedEntries env sls layerRefName) = Resolved entries ->
  entries <> [] ->
  outcome (getExternalModules env sls config layerRefName) = Resolved mods ->
  In dep (forceInclude config) ->
  In dep (forceExclude config) ->
  In dep mods
  /\ exists modules result,
       esbuild_build env (build_options env sls entries modules) = inr result
       /\ ~ In dep (kept env config (rawSpecifiers result))
       /\ mods = kept env config (rawSpecifiers result) ++ forceInclude config
       /\ skipn (List.length (kept env config (rawSpecifiers result))) mods
          = forceInclude config.
Proof.
  intros Hr Hne Hm Hi He.
  destruct (getExternalModules_filter_stage sls config layerRefName entries mods
              Hr Hne Hm) as [modules [result [Hb ->]]].
  rewrite filterStage_split. split.
  - apply in_or_app. now right.
  - exists modules, result. repeat split; auto.
    + rewrite kept_In. tauto.
    + rewrite skipn_app, skipn_all, Nat.sub_diag. reflexivity.
Qed.

(** C10.  In the sequence [getExternalModules] returns, a name that
    [forceInclude] does not contribute occurs at most once: the sequence is
    empty, or it is the duplicate-free names kept from the set of the
    normalized specifiers that are not built in, followed by
    [forceInclude]. *)
Theorem getExternalModules_at_most_once
  (sls : Serverless) (config : Config) (layerRefName : string)
  (mods : list string) (dep : string) :
  outcome (getExternalModules env sls config layerRefName) = Resolved mods ->
  ~ In dep (forceInclude config) ->
  (count_occ string_dec mods dep <= 1)%nat
  /\ (mods = []
      \/ exists result,
           mods = kept env config (rawSpecifiers result) ++ forceInclude config
           /\ NoDup (kept env config (rawSpecifiers result))
           /\ kept env config (rawSpecifiers result)
              = filter (fun d => negb (string_in d (DEFAULT_AWS_MODULES env))
                                 && negb (string_in d (forceExclude config)))
                       (Set_of (map fixModuleName
                                    (filter (fun m => negb (isBuiltinModule env m))
                                            (rawSpecifiers result))))).
Proof.
  intros Hm Hn.
  destruct (getExternalModules_returned sls config layerRefName mods Hm)
    as [-> | [result ->]].
  - split; [cbn; lia | now left].
  - pose proof (kept_NoDup env config (rawSpecifiers result)) as Hnd.
    split.
    + rewrite filterStage_split, count_occ_app.
      rewrite (proj1 (count_occ_not_In string_dec (forceInclude config) dep) Hn).
      pose proof (proj1 (NoDup_count_occ string_dec _) Hnd dep). lia.
    + right. exists result. repeat split; auto.
Qed.

End Returned.

Lemma getExternalModules_inclusion_wins_witness :
  In "uuid" (forceInclude Sample.config_both)
  /\ In "uuid" (forceExclude Sample.config_both)
  /\ outcome (getExternalModules (Sample.disk_env Sample.hello_files) Sample.hello_sls
                Sample.config_both "LayerA")
     = Resolved ["aws-sdk"; "uuid"]
  /\ In "uuid" ["aws-sdk"; "uuid"].
Proof.
  assert (Hi : In "uuid" (forceInclude Sample.config_both)) by (simpl; tauto).
  assert (He : In "uuid" (forceExclude Sample.config_both)) by (simpl; tauto).
  assert (Hne : ["/app/examples/example-layer-service/hello.js"] <> @nil string)
    by discriminate.
  split; [exact Hi|]. split; [exact He|]. split; [reflexivity|].
  exact (proj1 (getExternalModules_inclusion_wins (Sample.disk_env Sample.hello_files)
                  Sample.hello_sls Sample.config_both "LayerA"
                  ["/app/examples/example-layer-service/hello.js"]
                  ["aws-sdk"; "uuid"] "uuid" eq_refl Hne eq_refl Hi He)).
Defined.

Lemma getExternalModules_at_most_once_witness :
  outcome (getExternalModules (Sample.disk_env Sample.hello_files) Sample.hello_sls
             Sample.config0 "LayerA")
  = Resolved ["uuid"]
  /\ ~ In "uuid" (forceInclude Sample.config0)
  /\ (count_occ string_dec ["uuid"] "uuid" <= 1)%nat.
Proof.
  assert (Hn : ~ In "uuid" (forceInclude Sample.config0)) by (simpl; tauto).
  split; [reflexivity|]. split; [exact Hn|].
  exact (proj1 (getExternalModules_at_most_once (Sample.disk_env Sample.hello_files)
                  Sample.hello_sls Sample.config0 "LayerA" ["uuid"] "uuid"
                  eq_refl Hn)).
Defined.
